(** * Data ingestion service: a shallow embedding and its verified properties

    The Go packages [config], [models], [storage], [ingestion] and [server]
    of github.com/cyderes/data-ingestion-service are embedded as Rocq
    modules of the same names.  Calls that leave the repository (the process
    environment, [strconv], [time], the HTTP client, the DynamoDB client)
    are parameters of the embedding: a definition takes the answer of the
    outside world as an argument, so every theorem holds for every answer
    the outside world can give.

    Conventions.
    - A Go [int] is a [Z] and has 64 bits, as on the targets the service is
      built for (linux/amd64 and linux/arm64).  A [time.Duration] is an
      [int64] count of nanoseconds, and its arithmetic wraps ([wrap64]).
    - A Go result pair [(v, err)] is a Rocq pair [(v, e)] with
      [e : option error]; [None] is the nil error.
    - A nil slice is the empty list. *)

From Stdlib Require Import ZArith Lia Ascii String DecimalString DecimalZ DecimalPos SpecFloat.
From stdpp Require Import base option list gmap strings.

Open Scope string_scope.
Open Scope list_scope.
Open Scope Z_scope.

(** ** Go runtime values used by the service *)

(** Errors.  [errors_New] stands for an error made by a library or by
    [fmt.Errorf] without [%w]; [fmt_Errorf msg e] stands for
    [fmt.Errorf(msg + ": %w", e)]. *)
#[warnings="-register-all"]
Inductive error : Type :=
| errors_New (text : string)
| fmt_Errorf (msg : string) (err : option error).

(** [err.Error()].  A nil operand of [%w] is printed by [fmt] as
    [%!w(<nil>)]. *)
Fixpoint Error (e : error) : string :=
match e with
| errors_New text => text
| fmt_Errorf msg (Some e') => msg +:+ ": " +:+ Error e'
| fmt_Errorf msg None => msg +:+ ": %!w(<nil>)"
end.

(** [errors.Unwrap(err)]. *)
Definition Unwrap (e : error) : option error :=
match e with
| errors_New _ => None
| fmt_Errorf _ err => err
end.

(** The [%d] verb of [fmt]. *)
Definition fmt_d (n : Z) : string := NilZero.string_of_int (Z.to_int n).

(** Two's complement wrap-around of a 64-bit signed integer. *)
Definition MinInt64 : Z := - 2 ^ 63.
Definition MaxInt64 : Z := 2 ^ 63 - 1.
Definition wrap64 (n : Z) : Z := (n + 2 ^ 63) mod 2 ^ 64 - 2 ^ 63.

(** [time.Duration], in nanoseconds. *)
Definition Duration : Type := Z.
Definition time_Nanosecond : Duration := 1.
Definition time_Microsecond : Duration := 1000.
Definition time_Millisecond : Duration := 1000000.
Definition time_Second : Duration := 1000000000.
Definition time_Minute : Duration := 60 * time_Second.
Definition time_Hour : Duration := 60 * time_Minute.
Definition Duration_mul (a b : Duration) : Duration := wrap64 (a * b).

(** [time.Time]: an instant and the location it is presented in. *)
Inductive Location : Type := UTC | Local.

Record Time : Type := mkTime { unixNano : Z; location : Location }.

Definition Time_UTC (t : Time) : Time :=
{| unixNano := unixNano t; location := UTC |}.

(** The zero [time.Time]. *)
Definition Time_zero : Time := {| unixNano := 0; location := UTC |}.

(** ** Package models *)
Module models.

Record Post : Type := mkPost {
  UserID : Z;
  ID : Z;
  Title : string;
  Body : string }.

(** [Post_] is the embedded [Post]. *)
Record TransformedPost : Type := mkTransformedPost {
  Post_ : Post;
  IngestedAt : Time;
  Source : string }.

Record IngestionStatus : Type := mkIngestionStatus {
  LastSuccessfulRun : Time;
  LastAttempt : Time;
  Status : string;
  ErrorMessage : string;
  RecordsIngested : Z }.

(** The zero values of the structs. *)
Definition Post_zero : Post :=
{| UserID := 0; ID := 0; Title := ""; Body := "" |}.

Definition TransformedPost_zero : TransformedPost :=
{| Post_ := Post_zero; IngestedAt := Time_zero; Source := "" |}.

End models.

(** ** Package config *)
Module config.

Record StorageConfig : Type := mkStorageConfig {
  Type_ : string;
  Region : string;
  TableName : string;
  Endpoint : string;
  MongoDBURI : string;
  PostgresURI : string }.

Record IngestionConfig : Type := mkIngestionConfig {
  APIEndpoint : string;
  Interval : Duration;
  Timeout : Duration;
  RetryCount : Z }.

Record ServerConfig : Type := mkServerConfig { Port : Z }.

Record Config : Type := mkConfig {
  Storage : StorageConfig;
  Ingestion : IngestionConfig;
  Server : ServerConfig }.

Section Load.

(** The process environment, and the two parsers of the Go standard library
    the loader calls. *)
Context (environ : gmap string string).
Context (strconv_Atoi : string -> Z * option error).
Context (time_ParseDuration : string -> Duration * option error).

(** [os.Getenv]: the empty string for an unset variable. *)
Definition os_Getenv (key : string) : string := default "" (environ !! key).

Definition getEnv (key defaultValue : string) : string :=
let value := os_Getenv key in
if decide (value <> "") then value else defaultValue.

Definition getEnvInt (key : string) (defaultValue : Z) : Z :=
let value := os_Getenv key in
if decide (value <> "") then
  match strconv_Atoi value with
  | (intVal, None) => intVal
  | (_, Some _) => defaultValue
  end
else defaultValue.

Definition getEnvDuration (key : string) (defaultValue : Duration) : Duration :=
let value := os_Getenv key in
if decide (value <> "") then
  match time_ParseDuration value with
  | (duration, None) => duration
  | (_, Some _) => defaultValue
  end
else defaultValue.

Definition Load : option Config * option error :=
let cfg :=
  {| Storage :=
       {| Type_ := getEnv "STORAGE_TYPE" "dynamodb";
          Region := getEnv "AWS_REGION" "us-west-2";
          TableName := getEnv "TABLE_NAME" "ingested_data";
          Endpoint := getEnv "DYNAMODB_ENDPOINT" "";
          MongoDBURI := getEnv "MONGODB_URI" "";
          PostgresURI := getEnv "POSTGRES_URI" "" |};
     Ingestion :=
       {| APIEndpoint := getEnv "API_ENDPOINT" "https://jsonplaceholder.typicode.com/posts";
          Interval := getEnvDuration "INGESTION_INTERVAL" (5 * time_Minute);
          Timeout := getEnvDuration "API_TIMEOUT" (30 * time_Second);
          RetryCount := getEnvInt "RETRY_COUNT" 3 |};
     Server := {| Port := getEnvInt "SERVER_PORT" 8080 |} |} in
(Some cfg, None).

End Load.

End config.

(** ** Packages strconv and time: the parsers

    [strconv.Atoi] and [time.ParseDuration] as the Go library (go 1.21)
    defines them, to run the loader and the HTTP handlers on concrete
    inputs.  A string is its sequence of bytes; a [uint64] is a [Z] whose
    wrap-around is written out where it can occur. *)
Definition byte (c : ascii) : Z := Z.of_nat (nat_of_ascii c).
Definition isDigit (c : ascii) : bool := (48 <=? byte c) && (byte c <=? 57).

(** The [Err] of a [*strconv.NumError]. *)
Inductive NumErrorKind : Type := ErrSyntax | ErrRange.

Definition strconv_ErrSyntax : error := errors_New "invalid syntax".
Definition strconv_ErrRange : error := errors_New "value out of range".

(** The digit loop of [strconv.ParseUint(s, 10, 64)], from the value [n]
    read so far: the first byte that is no digit is a syntax error; a value
    that leaves the 64 bits is a range error, met before any later byte is
    looked at, and comes with the largest value. *)
Fixpoint ParseUint_from (s : string) (n : Z) : Z * option NumErrorKind :=
match s with
| "" => (n, None)
| String c r =>
  if negb (isDigit c) then (0, Some ErrSyntax)
  else if (2 ^ 64 - 1) / 10 + 1 <=? n then (2 ^ 64 - 1, Some ErrRange)
  else
    let n1 := n * 10 + (byte c - 48) in
    if 2 ^ 64 - 1 <? n1 then (2 ^ 64 - 1, Some ErrRange)
    else ParseUint_from r n1
end.

Definition ParseUint (s : string) : Z * option NumErrorKind :=
match s with
| "" => (0, Some ErrSyntax)
| _ => ParseUint_from s 0
end.

(** [strconv.Atoi] on a 64-bit target: [strconv.ParseInt(s, 10, 0)], whose
    results its fast path for short strings shares.  The error returned
    is the [Err] field of Go's [*NumError]. *)
Definition Atoi (s : string) : Z * option error :=
match s with
| "" => (0, Some strconv_ErrSyntax)
| String c r =>
  let '(neg, digits) :=
    if Ascii.eqb c "+" then (false, r)
    else if Ascii.eqb c "-" then (true, r)
    else (false, s) in
  match ParseUint digits with
  | (_, Some ErrSyntax) => (0, Some strconv_ErrSyntax)
  | (un, _) =>
    if negb neg && (2 ^ 63 <=? un) then (MaxInt64, Some strconv_ErrRange)
    else if neg && (2 ^ 63 <? un) then (MinInt64, Some strconv_ErrRange)
    else (if neg : bool then - un else un, None)
  end
end.

(** *** time.ParseDuration *)

(** [float64]: IEEE 754 binary64, rounding to nearest even. *)
Definition float64 : Type := spec_float.
Definition float64_of_uint64 (n : Z) : float64 := binary_normalize 53 1024 n 0 false.
Definition float64_mul : float64 -> float64 -> float64 := SFmul 53 1024.
Definition float64_div : float64 -> float64 -> float64 := SFdiv 53 1024.

(** [uint64(x)] for a float that is not negative and below [2^64]: the
    fraction is cut off. *)
Definition uint64_of_float64 (x : float64) : Z :=
match x with
| S754_finite false m e => if 0 <=? e then Z.shiftl (Z.pos m) e else Z.shiftr (Z.pos m) (- e)
| _ => 0
end.

Definition backslash : ascii := ascii_of_nat 92.

Definition lowerhex (n : Z) : ascii :=
ascii_of_nat (Z.to_nat (if n <? 10 then 48 + n else 87 + n)).

(** [quote]: the string between double quotes, with a backslash before a
    double quote and a backslash, and every byte of a control character
    and of a character outside ASCII as [\xhh]. *)
Fixpoint quote_bytes (s : string) : string :=
match s with
| "" => ""
| String c r =>
  if (128 <=? byte c) || (byte c <? 32) then
    String backslash (String "x" (String (lowerhex (Z.shiftr (byte c) 4))
                                    (String (lowerhex (Z.land (byte c) 15)) (quote_bytes r))))
  else if (byte c =? 34) || (byte c =? 92) then String backslash (String c (quote_bytes r))
  else String c (quote_bytes r)
end.

Definition quote (s : string) : string :=
String (ascii_of_nat 34) (quote_bytes s +:+ String (ascii_of_nat 34) "").

(** [leadingInt]: the leading [[0-9]*] of [s] as a number, and the rest of
    [s]; [None] is [errLeadingInt], a value above [2^63]. *)
Fixpoint leadingInt_from (s : string) (x : Z) : option (Z * string) :=
match s with
| "" => Some (x, "")
| String c r =>
  if negb (isDigit c) then Some (x, s)
  else if 2 ^ 63 / 10 <? x then None
  else
    let x1 := x * 10 + byte c - 48 in
    if 2 ^ 63 <? x1 then None else leadingInt_from r x1
end.

Definition leadingInt (s : string) : option (Z * string) := leadingInt_from s 0.

(** [leadingFraction]: the leading [[0-9]*] of [s] as the numerator [x] of
    a fraction [x/scale], and the rest of [s]; digits that would take [x]
    out of range are dropped. *)
Fixpoint leadingFraction_from (s : string) (x : Z) (scale : float64) (overflow : bool)
  : Z * float64 * string :=
match s with
| "" => (x, scale, "")
| String c r =>
  if negb (isDigit c) then (x, scale, s)
  else if overflow then leadingFraction_from r x scale overflow
  else if (2 ^ 63 - 1) / 10 <? x then leadingFraction_from r x scale true
  else
    let y := x * 10 + byte c - 48 in
    if 2 ^ 63 <? y then leadingFraction_from r x scale true
    else leadingFraction_from r y (float64_mul scale (float64_of_uint64 10)) overflow
end.

Definition leadingFraction (s : string) : Z * float64 * string :=
leadingFraction_from s 0 (float64_of_uint64 1) false.

(** The unit of a group: the bytes up to the next digit or period. *)
Fixpoint splitUnit (s : string) : string * string :=
match s with
| "" => ("", "")
| String c r =>
  if (byte c =? 46) || isDigit c then ("", s)
  else let '(u, rest) := splitUnit r in (String c u, rest)
end.

Definition micro_sign : string := String (ascii_of_nat 194) (String (ascii_of_nat 181) "").
Definition greek_mu : string := String (ascii_of_nat 206) (String (ascii_of_nat 188) "").

Definition unitMap : list (string * Z) :=
[ ("ns", time_Nanosecond); ("us", time_Microsecond);
  (micro_sign +:+ "s", time_Microsecond); (greek_mu +:+ "s", time_Microsecond);
  ("ms", time_Millisecond); ("s", time_Second); ("m", time_Minute); ("h", time_Hour) ].

Definition unitMap_lookup (u : string) : option Z :=
snd <$> find (fun kv => bool_decide (fst kv = u)) unitMap.

Definition invalidDuration (orig : string) : error :=
errors_New ("time: invalid duration " +:+ quote orig).

(** The loop [for s != ""] of [ParseDuration]: one group of number and
    unit a round, added to the sum [d] of the groups before.  A round
    takes at least one byte of [s], so [fuel] as long as [s] is enough
    ([durationLoop_fuel]). *)
Fixpoint durationLoop (fuel : nat) (orig s : string) (d : Z) : Z * option error :=
match s, fuel with
| "", _ => (d, None)
| _, O => (d, None)
| String c _, S fuel' =>
  if negb ((byte c =? 46) || isDigit c) then (0, Some (invalidDuration orig))
  else
    match leadingInt s with
    | None => (0, Some (invalidDuration orig))
    | Some (v, s1) =>
      let pre := negb (String.length s =? String.length s1)%nat in
      let '(f, scale, s2, post) :=
        match s1 with
        | String dot r =>
          if byte dot =? 46 then
            let '(f, scale, s2) := leadingFraction r in
            (f, scale, s2, negb (String.length r =? String.length s2)%nat)
          else (0, float64_of_uint64 1, s1, false)
        | "" => (0, float64_of_uint64 1, s1, false)
        end in
      if negb pre && negb post then (0, Some (invalidDuration orig))
      else
        let '(u, s3) := splitUnit s2 in
        if bool_decide (u = "") then
          (0, Some (errors_New ("time: missing unit in duration " +:+ quote orig)))
        else
          match unitMap_lookup u with
          | None =>
            (0, Some (errors_New ("time: unknown unit " +:+ quote u +:+ " in duration "
                                  +:+ quote orig)))
          | Some unit_ =>
            if 2 ^ 63 / unit_ <? v then (0, Some (invalidDuration orig))
            else
              let v := v * unit_ in
              let v :=
                if 0 <? f then
                  v + uint64_of_float64
                        (float64_mul (float64_of_uint64 f)
                           (float64_div (float64_of_uint64 unit_) scale))
                else v in
              if (0 <? f) && (2 ^ 63 <? v) then (0, Some (invalidDuration orig))
              else
                let d := (d + v) mod 2 ^ 64 in
                if 2 ^ 63 <? d then (0, Some (invalidDuration orig))
                else durationLoop fuel' orig s3 d
          end
    end
end.

Definition ParseDuration (orig : string) : Duration * option error :=
let '(neg, s) :=
  match orig with
  | String c r =>
    if (byte c =? 45) || (byte c =? 43) then (byte c =? 45, r) else (false, orig)
  | "" => (false, orig)
  end in
if bool_decide (s = "0") then (0, None)
else if bool_decide (s = "") then (0, Some (invalidDuration orig))
else
  match durationLoop (String.length s) orig s 0 with
  | (_, Some err) => (0, Some err)
  | (d, None) =>
    if neg : bool then (wrap64 (- wrap64 d), None)
    else if 2 ^ 63 - 1 <? d then (0, Some (invalidDuration orig))
    else (d, None)
  end.

(** ** Package storage *)
Module storage.
Import models.

(** The [Storage] interface.  [W] is the state of the outside world the
    backend talks to; every method takes the state before the call and
    returns the state after it.  The [ctx] argument of the Go methods only
    reaches the client library and is part of [W]. *)
Record Storage (W : Type) : Type := mkStorage {
  StorePosts : list TransformedPost -> W -> option error * W;
  GetPosts : Z -> Z -> W -> (list TransformedPost * option error) * W;
  GetPostByID : Z -> W -> (option TransformedPost * option error) * W;
  UpdateIngestionStatus : IngestionStatus -> W -> option error * W;
  GetIngestionStatus : W -> (option IngestionStatus * option error) * W;
  Close : W -> option error * W }.

Arguments StorePosts {W} _ _ _.
Arguments GetPosts {W} _ _ _ _.
Arguments GetPostByID {W} _ _ _.
Arguments UpdateIngestionStatus {W} _ _ _.
Arguments GetIngestionStatus {W} _ _.
Arguments Close {W} _ _.

(** *** The DynamoDB client library, as the backend uses it *)

Inductive AttributeValue : Type :=
| AttrN (n : string)
| AttrS (s : string).

#[global] Instance AttributeValue_eq_dec : EqDecision AttributeValue.
Proof. solve_decision. Defined.

Record CreateTableInput : Type := mkCreateTableInput {
  cti_TableName : string;
  cti_KeyAttribute : string;
  cti_KeyType : string;
  cti_AttributeType : string;
  cti_BillingMode : string }.

(** The calls of [*dynamodb.DynamoDB] and [session] the backend makes. *)
Record DynamoDBAPI (W : Type) : Type := mkDynamoDBAPI {
  session_NewSession : string -> option string -> W -> option error * W;
  DescribeTable : string -> W -> option error * W;
  CreateTable : CreateTableInput -> W -> option error * W;
  WaitUntilTableExists : string -> W -> option error * W;
  PutItemWithContext : string -> gmap string AttributeValue -> W -> option error * W;
  ScanWithContext : string -> Z -> W -> (list (gmap string AttributeValue) * option error) * W;
  GetItemWithContext :
    string -> gmap string AttributeValue -> W ->
    (option (gmap string AttributeValue) * option error) * W }.

Arguments session_NewSession {W} _ _ _ _.
Arguments DescribeTable {W} _ _ _.
Arguments CreateTable {W} _ _ _.
Arguments WaitUntilTableExists {W} _ _ _.
Arguments PutItemWithContext {W} _ _ _ _.
Arguments ScanWithContext {W} _ _ _ _.
Arguments GetItemWithContext {W} _ _ _ _.

(** The calls of package [dynamodbattribute] the backend makes. *)
Record Codec : Type := mkCodec {
  MarshalMap_post : TransformedPost -> gmap string AttributeValue * option error;
  UnmarshalMap_post : gmap string AttributeValue -> TransformedPost * option error;
  UnmarshalListOfMaps :
    list (gmap string AttributeValue) -> list TransformedPost * option error;
  MarshalMap_status : IngestionStatus -> gmap string AttributeValue * option error;
  UnmarshalMap_status : gmap string AttributeValue -> IngestionStatus * option error }.

(** *** The DynamoDB backend *)

Record DynamoDBStorage : Type := mkDynamoDBStorage { tableName : string }.

Section DynamoDB.

Context {W : Type} (client : DynamoDBAPI W) (codec : Codec).

Definition ensureTable (d : DynamoDBStorage) (w : W) : option error * W :=
match DescribeTable client (tableName d) w with
| (None, w1) => (None, w1)
| (Some _, w1) =>
  let input :=
    {| cti_TableName := tableName d;
       cti_KeyAttribute := "id";
       cti_KeyType := "HASH";
       cti_AttributeType := "N";
       cti_BillingMode := "PAY_PER_REQUEST" |} in
  match CreateTable client input w1 with
  | (Some err, w2) => (Some (fmt_Errorf "failed to create table" (Some err)), w2)
  | (None, w2) => WaitUntilTableExists client (tableName d) w2
  end
end.

Definition NewDynamoDBStorage (cfg : config.StorageConfig) (w : W)
  : (option DynamoDBStorage * option error) * W :=
let endpoint :=
  if decide (config.Endpoint cfg <> "") then Some (config.Endpoint cfg) else None in
match session_NewSession client (config.Region cfg) endpoint w with
| (Some err, w1) => ((None, Some (fmt_Errorf "failed to create AWS session" (Some err))), w1)
| (None, w1) =>
  let storage := {| tableName := config.TableName cfg |} in
  match ensureTable storage w1 with
  | (Some err, w2) =>
    ((None, Some (fmt_Errorf "failed to ensure table exists" (Some err))), w2)
  | (None, w2) => ((Some storage, None), w2)
  end
end.

Fixpoint DynamoDB_StorePosts (d : DynamoDBStorage) (posts : list TransformedPost) (w : W)
  : option error * W :=
match posts with
| [] => (None, w)
| post :: rest =>
  match MarshalMap_post codec post with
  | (_, Some err) =>
    (Some (fmt_Errorf ("failed to marshal post " +:+ fmt_d (ID (Post_ post))) (Some err)), w)
  | (item, None) =>
    match PutItemWithContext client (tableName d) item w with
    | (Some err, w1) =>
      (Some (fmt_Errorf ("failed to store post " +:+ fmt_d (ID (Post_ post))) (Some err)), w1)
    | (None, w1) => DynamoDB_StorePosts d rest w1
    end
  end
end.

Definition DynamoDB_GetPosts (d : DynamoDBStorage) (limit offset : Z) (w : W)
  : (list TransformedPost * option error) * W :=
match ScanWithContext client (tableName d) limit w with
| ((_, Some err), w1) => (([], Some (fmt_Errorf "failed to scan posts" (Some err))), w1)
| ((items, None), w1) =>
  match UnmarshalListOfMaps codec items with
  | (_, Some err) => (([], Some (fmt_Errorf "failed to unmarshal posts" (Some err))), w1)
  | (posts, None) => ((posts, None), w1)
  end
end.

Definition DynamoDB_GetPostByID (d : DynamoDBStorage) (id : Z) (w : W)
  : (option TransformedPost * option error) * W :=
let key : gmap string AttributeValue := {[ "id" := AttrN (fmt_d id) ]} in
match GetItemWithContext client (tableName d) key w with
| ((_, Some err), w1) =>
  ((None, Some (fmt_Errorf ("failed to get post " +:+ fmt_d id) (Some err))), w1)
| ((None, None), w1) => ((None, None), w1)
| ((Some item, None), w1) =>
  match UnmarshalMap_post codec item with
  | (_, Some err) => ((None, Some (fmt_Errorf "failed to unmarshal post" (Some err))), w1)
  | (post, None) => ((Some post, None), w1)
  end
end.

Definition statusKey : gmap string AttributeValue := {[ "id" := AttrS "ingestion_status" ]}.

Definition DynamoDB_UpdateIngestionStatus (d : DynamoDBStorage) (status : IngestionStatus)
  (w : W) : option error * W :=
match MarshalMap_status codec status with
| (_, Some err) => (Some (fmt_Errorf "failed to marshal ingestion status" (Some err)), w)
| (item, None) =>
  let item := <[ "id" := AttrS "ingestion_status" ]> item in
  PutItemWithContext client (tableName d +:+ "_status") item w
end.

Definition DynamoDB_GetIngestionStatus (d : DynamoDBStorage) (w : W)
  : (option IngestionStatus * option error) * W :=
match GetItemWithContext client (tableName d +:+ "_status") statusKey w with
| ((_, Some err), w1) =>
  ((None, Some (fmt_Errorf "failed to get ingestion status" (Some err))), w1)
| ((None, None), w1) =>
  ((Some {| LastSuccessfulRun := Time_zero; LastAttempt := Time_zero;
            Status := "never_run"; ErrorMessage := ""; RecordsIngested := 0 |}, None), w1)
| ((Some item, None), w1) =>
  match UnmarshalMap_status codec item with
  | (_, Some err) =>
    ((None, Some (fmt_Errorf "failed to unmarshal ingestion status" (Some err))), w1)
  | (status, None) => ((Some status, None), w1)
  end
end.

Definition DynamoDB_Close (d : DynamoDBStorage) (w : W) : option error * W := (None, w).

(** [*DynamoDBStorage] implements [Storage]. *)
Definition DynamoDB_Storage (d : DynamoDBStorage) : Storage W :=
{| StorePosts := DynamoDB_StorePosts d;
   GetPosts := DynamoDB_GetPosts d;
   GetPostByID := DynamoDB_GetPostByID d;
   UpdateIngestionStatus := DynamoDB_UpdateIngestionStatus d;
   GetIngestionStatus := DynamoDB_GetIngestionStatus d;
   Close := DynamoDB_Close d |}.

(** *** Backend selection *)

(** The constructors of the other two backends are not part of the
    sources at hand; [NewStorage] takes them as they are declared. *)
Context (NewMongoDBStorage NewPostgreSQLStorage :
  config.StorageConfig -> W -> (option (Storage W) * option error) * W).

Definition NewStorage (cfg : config.StorageConfig) (w : W)
  : (option (Storage W) * option error) * W :=
if decide (config.Type_ cfg = "dynamodb") then
  match NewDynamoDBStorage cfg w with
  | ((d, err), w1) => ((DynamoDB_Storage <$> d, err), w1)
  end
else if decide (config.Type_ cfg = "mongodb") then NewMongoDBStorage cfg w
else if decide (config.Type_ cfg = "postgresql") then NewPostgreSQLStorage cfg w
else ((None, Some (errors_New ("unsupported storage type: " +:+ config.Type_ cfg))), w).

End DynamoDB.

End storage.

(** ** An in-memory DynamoDB

    An executable stand-in for the DynamoDB service and for package
    [dynamodbattribute], in the manner of DynamoDB Local: a database is a
    finite map from the names of the tables that exist to their items, in
    scan order.  Every call on a table that does not exist fails; [PutItem]
    replaces the item with the same ["id"] or appends; [Scan] with a limit
    returns the first items up to the limit. *)
Module memdb.
Import models storage.

Definition ResourceNotFound : error :=
errors_New "ResourceNotFoundException: Cannot do operations on a non-existent table".

Definition ResourceInUse : error :=
errors_New "ResourceInUseException: Cannot create preexisting table".

Definition ValidationError : error :=
errors_New "ValidationException: Limit must be greater than or equal to 1".

Definition exists_ (name : string) (db : gmap string (list (gmap string AttributeValue)))
  : option error :=
match db !! name with
| Some _ => None
| None => Some ResourceNotFound
end.

Fixpoint putRow (item : gmap string AttributeValue) (rows : list (gmap string AttributeValue))
  : list (gmap string AttributeValue) :=
match rows with
| [] => [item]
| row :: rows' =>
  if decide (row !! "id" = item !! "id") then item :: rows' else row :: putRow item rows'
end.

Definition client : DynamoDBAPI (gmap string (list (gmap string AttributeValue))) :=
{| session_NewSession := fun _ _ db => (None, db);
   DescribeTable := fun name db => (exists_ name db, db);
   CreateTable := fun input db =>
     match db !! cti_TableName input with
     | Some _ => (Some ResourceInUse, db)
     | None => (None, <[ cti_TableName input := [] ]> db)
     end;
   WaitUntilTableExists := fun name db => (exists_ name db, db);
   PutItemWithContext := fun name item db =>
     match db !! name with
     | Some rows => (None, <[ name := putRow item rows ]> db)
     | None => (Some ResourceNotFound, db)
     end;
   ScanWithContext := fun name limit db =>
     match db !! name with
     | Some rows =>
       if decide (limit < 1) then (([], Some ValidationError), db)
       else ((take (Z.to_nat limit) rows, None), db)
     | None => (([], Some ResourceNotFound), db)
     end;
   GetItemWithContext := fun name key db =>
     match db !! name with
     | Some rows =>
       ((snd <$> list_find (fun row => row !! "id" = key !! "id") rows, None), db)
     | None => ((None, Some ResourceNotFound), db)
     end |}.

Definition attrInt (item : gmap string AttributeValue) (name : string) : Z :=
match item !! name with
| Some (AttrN n) => fst (Atoi n)
| _ => 0
end.

Definition attrString (item : gmap string AttributeValue) (name : string) : string :=
match item !! name with
| Some (AttrS s) => s
| _ => ""
end.

Definition attrTime (item : gmap string AttributeValue) (name : string) : Time :=
{| unixNano := attrInt item name; location := UTC |}.

Definition marshalPost (post : TransformedPost) : gmap string AttributeValue :=
<[ "userId" := AttrN (fmt_d (UserID (Post_ post))) ]>
(<[ "id" := AttrN (fmt_d (ID (Post_ post))) ]>
(<[ "title" := AttrS (Title (Post_ post)) ]>
(<[ "body" := AttrS (Body (Post_ post)) ]>
(<[ "ingested_at" := AttrN (fmt_d (unixNano (IngestedAt post))) ]>
(<[ "source" := AttrS (Source post) ]> ∅))))).

Definition unmarshalPost (item : gmap string AttributeValue) : TransformedPost :=
{| Post_ := {| UserID := attrInt item "userId"; ID := attrInt item "id";
               Title := attrString item "title"; Body := attrString item "body" |};
   IngestedAt := attrTime item "ingested_at";
   Source := attrString item "source" |}.

Definition marshalStatus (status : IngestionStatus) : gmap string AttributeValue :=
<[ "last_successful_run" := AttrN (fmt_d (unixNano (LastSuccessfulRun status))) ]>
(<[ "last_attempt" := AttrN (fmt_d (unixNano (LastAttempt status))) ]>
(<[ "status" := AttrS (Status status) ]>
(<[ "error_message" := AttrS (ErrorMessage status) ]>
(<[ "records_ingested" := AttrN (fmt_d (RecordsIngested status)) ]> ∅)))).

Definition unmarshalStatus (item : gmap string AttributeValue) : IngestionStatus :=
{| LastSuccessfulRun := attrTime item "last_successful_run";
   LastAttempt := attrTime item "last_attempt";
   Status := attrString item "status";
   ErrorMessage := attrString item "error_message";
   RecordsIngested := attrInt item "records_ingested" |}.

Definition codec : Codec :=
{| MarshalMap_post := fun post => (marshalPost post, None);
   UnmarshalMap_post := fun item => (unmarshalPost item, None);
   UnmarshalListOfMaps := fun items => (unmarshalPost <$> items, None);
   MarshalMap_status := fun status => (marshalStatus status, None);
   UnmarshalMap_status := fun item => (unmarshalStatus item, None) |}.

End memdb.

(** ** Package ingestion *)
Module ingestion.
Import models.

(** *** The outside world of the service *)

(** What one run of [fetchPostsOnce] meets: the request cannot be built,
    the client fails (transport error, timeout, cancelled context), or a
    response arrives whose body can or cannot be read. *)
Inductive ResponseBody : Type :=
| ReadError (err : error)
| BodyBytes (body : string).

Inductive Exchange : Type :=
| NewRequestError (err : error)
| DoError (err : error)
| Response (StatusCode : Z) (body : ResponseBody).

Inductive StorageCall : Type :=
| CallStorePosts (posts : list TransformedPost)
| CallGetPosts (limit offset : Z)
| CallGetPostByID (id : Z)
| CallUpdateIngestionStatus (status : IngestionStatus)
| CallGetIngestionStatus
| CallClose.

(** What the service does to the outside world, in the order it does it. *)
Inductive Event : Type :=
| EvAttempt (n : nat)
| EvBackoff (waitTime : Duration) (cancelled : bool)
| EvNow (n : nat)
| EvStorage (call : StorageCall)
| EvPrint (line : string)
| EvNewTicker (interval : Duration)
| EvSelectTick (cancelled : bool)
| EvTickerStop.

(** The answers of the outside world.  [exchange n] is what the [n]-th
    fetch meets; [backoffCancelled n] tells whether [ctx.Done()] wins the
    [n]-th backoff select against [time.After]; [tickCancelled n] tells
    whether it wins the [n]-th select of the periodic loop against the
    ticker; [now n] is the [n]-th reading of the clock; [ctx_Err] is what
    [ctx.Err()] returns once the context is done. *)
Record Env : Type := mkEnv {
  exchange : nat -> Exchange;
  json_Unmarshal : string -> list Post * option error;
  backoffCancelled : nat -> bool;
  tickCancelled : nat -> bool;
  now : nat -> Time;
  ctx_Err : error }.

(** The state of a run: how many answers of each kind were consumed, the
    events so far (oldest first) and the state behind the storage. *)
Record World (W : Type) : Type := mkWorld {
  fetches : nat;
  backoffs : nat;
  ticks : nat;
  clockReads : nat;
  trace : list Event;
  store : W }.

Arguments mkWorld {W} _ _ _ _ _ _.
Arguments fetches {W} _.
Arguments backoffs {W} _.
Arguments ticks {W} _.
Arguments clockReads {W} _.
Arguments trace {W} _.
Arguments store {W} _.

(** The state monad of the service. *)
Definition M (W A : Type) : Type := World W -> A * World W.

#[global] Instance M_ret {W} : MRet (M W) := fun A (a : A) w => (a, w).

#[global] Instance M_bind {W} : MBind (M W) :=
fun A B (f : A -> M W B) (m : M W A) w => let '(a, w1) := m w in f a w1.

Record Service (W : Type) : Type := mkService {
  cfg : config.IngestionConfig;
  storage_ : storage.Storage W }.

Arguments cfg {W} _.
Arguments storage_ {W} _.

Definition newline : string := String (ascii_of_nat 10) "".

(** The result of [Start] after a bounded number of rounds of its loop:
    it has returned, it has panicked, or it is still in the loop. *)
Inductive Outcome : Type :=
| Returned (err : option error)
| Panicked (reason : string)
| Running.

Section Service.

Context {W : Type} (env : Env) (s : Service W).

(** *** Primitive effects *)

Definition httpExchange : M W Exchange :=
fun w =>
  (exchange env (fetches w),
   mkWorld (S (fetches w)) (backoffs w) (ticks w) (clockReads w)
     (trace w ++ [EvAttempt (fetches w)]) (store w)).

(** [select { case <-ctx.Done(): ... case <-time.After(waitTime): }] *)
Definition selectBackoff (waitTime : Duration) : M W bool :=
fun w =>
  let cancelled := backoffCancelled env (backoffs w) in
  (cancelled,
   mkWorld (fetches w) (S (backoffs w)) (ticks w) (clockReads w)
     (trace w ++ [EvBackoff waitTime cancelled]) (store w)).

(** [select { case <-ctx.Done(): ... case <-ticker.C: ... }] *)
Definition selectTick : M W bool :=
fun w =>
  let cancelled := tickCancelled env (ticks w) in
  (cancelled,
   mkWorld (fetches w) (backoffs w) (S (ticks w)) (clockReads w)
     (trace w ++ [EvSelectTick cancelled]) (store w)).

Definition time_Now : M W Time :=
fun w =>
  (now env (clockReads w),
   mkWorld (fetches w) (backoffs w) (ticks w) (S (clockReads w))
     (trace w ++ [EvNow (clockReads w)]) (store w)).

Definition emit (e : Event) : M W unit :=
fun w =>
  (tt, mkWorld (fetches w) (backoffs w) (ticks w) (clockReads w) (trace w ++ [e]) (store w)).

Definition fmt_Printf (line : string) : M W unit := emit (EvPrint line).

Definition storage_StorePosts (posts : list TransformedPost) : M W (option error) :=
fun w =>
  let '(err, st) := storage.StorePosts (storage_ s) posts (store w) in
  (err,
   mkWorld (fetches w) (backoffs w) (ticks w) (clockReads w)
     (trace w ++ [EvStorage (CallStorePosts posts)]) st).

(** *** fetchPostsOnce *)

(** The result of one attempt, from what the attempt meets. *)
Definition attemptResult (x : Exchange) : list Post * option error :=
match x with
| NewRequestError err => ([], Some (fmt_Errorf "failed to create request" (Some err)))
| DoError err => ([], Some (fmt_Errorf "failed to make request" (Some err)))
| Response StatusCode body =>
  if decide (StatusCode <> 200) then
    ([], Some (errors_New ("API returned status " +:+ fmt_d StatusCode)))
  else
    match body with
    | ReadError err => ([], Some (fmt_Errorf "failed to read response body" (Some err)))
    | BodyBytes body =>
      match json_Unmarshal env body with
      | (_, Some err) => ([], Some (fmt_Errorf "failed to unmarshal response" (Some err)))
      | (posts, None) => (posts, None)
      end
    end
end.

Definition fetchPostsOnce : M W (list Post * option error) :=
x ← httpExchange; mret (attemptResult x).

(** *** fetchPosts *)

(** The loop [for attempt := 0; attempt < RetryCount; attempt++].  The body
    never assigns [attempt], so the loop runs [RetryCount - attempt] more
    times, or not at all when that is not positive: [remaining] is that
    number, [remaining = 0] is the loop test failing, and the code after
    the loop runs.  [attempt + 1] and [RetryCount - 1] stay within the
    64-bit range inside the loop, where [0 <= attempt < RetryCount]. *)
Fixpoint fetchPosts_from (remaining : nat) (attempt : Z) (lastErr : option error)
  : M W (list Post * option error) :=
match remaining with
| O =>
  mret ([], Some (fmt_Errorf
                    ("failed after " +:+ fmt_d (config.RetryCount (cfg s)) +:+ " attempts")
                    lastErr))
| S remaining' =>
  r ← fetchPostsOnce;
  match r with
  | (posts, None) => mret (posts, None)
  | (_, Some err) =>
    let lastErr := Some err in
    if decide (attempt < config.RetryCount (cfg s) - 1) then
      let waitTime := Duration_mul (attempt + 1) time_Second in
      cancelled ← selectBackoff waitTime;
      if cancelled : bool then mret ([], Some (ctx_Err env))
      else fetchPosts_from remaining' (attempt + 1) lastErr
    else fetchPosts_from remaining' (attempt + 1) lastErr
  end
end.

Definition fetchPosts : M W (list Post * option error) :=
fetchPosts_from (Z.to_nat (config.RetryCount (cfg s))) 0 None.

(** *** transformPosts *)

(** [transformed := make([]models.TransformedPost, len(posts))], then
    [transformed[i] = ...] for every index and post of [posts]. *)
Definition transformPosts (posts : list Post) : M W (list TransformedPost) :=
t ← time_Now;
let now := Time_UTC t in
let transformed := replicate (length posts) TransformedPost_zero in
mret (foldl
        (fun transformed '(i, post) =>
           <[ i := {| Post_ := post; IngestedAt := now; Source := "placeholder_api" |} ]>
             transformed)
        transformed (imap pair posts)).

(** *** IngestData *)

Definition IngestData : M W (option error) :=
r ← fetchPosts;
match r with
| (_, Some err) => mret (Some (fmt_Errorf "failed to fetch posts" (Some err)))
| (posts, None) =>
  transformedPosts ← transformPosts posts;
  err ← storage_StorePosts transformedPosts;
  match err with
  | Some err => mret (Some (fmt_Errorf "failed to store posts" (Some err)))
  | None =>
    _ ← fmt_Printf ("Successfully ingested "
                      +:+ fmt_d (Z.of_nat (length transformedPosts)) +:+ " posts" +:+ newline);
    mret None
  end
end.

(** *** Start *)

(** [rounds] rounds of the loop [for { select { ... } }]. *)
Fixpoint periodicLoop (rounds : nat) : M W Outcome :=
match rounds with
| O => mret Running
| S rounds' =>
  cancelled ← selectTick;
  if cancelled : bool then
    _ ← emit EvTickerStop; mret (Returned (Some (ctx_Err env)))
  else
    err ← IngestData;
    _ ← match err with
        | Some err => fmt_Printf ("Ingestion error: " +:+ Error err +:+ newline)
        | None => mret tt
        end;
    periodicLoop rounds'
end.

(** [time.NewTicker] panics on an interval that is not positive. *)
Definition Start (rounds : nat) : M W Outcome :=
err ← IngestData;
match err with
| Some err => mret (Returned (Some (fmt_Errorf "initial ingestion failed" (Some err))))
| None =>
  if decide (config.Interval (cfg s) <= 0) then
    mret (Panicked "non-positive interval for NewTicker")
  else
    _ ← emit (EvNewTicker (config.Interval (cfg s)));
    periodicLoop rounds
end.

End Service.

End ingestion.

(** ** Vocabulary of the configuration properties *)
Module configprops.



Section ConfigProps.

Context (strconv_Atoi : string -> Z * option error).
Context (time_ParseDuration : string -> Duration * option error).




End ConfigProps.

End configprops.

(** ** Vocabulary of the properties *)
Module props.
Import models ingestion.

(** The error of the [n]-th attempt, [None] when it succeeds. *)
Definition attemptError (env : Env) (n : nat) : option error :=
snd (attemptResult env (exchange env n)).

(** The durations the service asked to wait for, in order. *)
Definition waitsOf (events : list Event) : list Duration :=
omap (fun e => match e with EvBackoff waitTime _ => Some waitTime | _ => None end) events.

(** The storage calls the service made, in order. *)
Definition storageCallsOf (events : list Event) : list StorageCall :=
omap (fun e => match e with EvStorage call => Some call | _ => None end) events.

(** [k] failed attempts from the [first]-th on, each followed by a backoff
    that runs to its end, with the wait the code computes for it. *)
Fixpoint backoffRun (first : nat) (attempt : Z) (k : nat) : list Event :=
match k with
| O => []
| S k' =>
  EvAttempt first :: EvBackoff (Duration_mul (attempt + 1) time_Second) false
    :: backoffRun (S first) (attempt + 1) k'
end.

(** [k] failed attempts, the [i]-th followed by a wait of [i] seconds that
    runs to its end, then one more attempt and nothing after it. *)
Definition retryTrace (first k : nat) : list Event :=
flat_map
  (fun i => [EvAttempt (first + i); EvBackoff ((Z.of_nat i + 1) * time_Second) false])
  (seq 0 k)
++ [EvAttempt (first + k)].

(** The retry property: with a retry count of at least one, [k] failures
    (fewer than the retry count) and then a success, none of the backoffs
    being cut short by cancellation, [fetchPosts] returns the fetched
    posts after [k + 1] attempts and [k] waits of 1 s, ..., [k] s. *)
Definition retryProperty {W} (env : Env) (s : Service W) (w : World W) (k : nat)
  (posts : list Post) : Prop :=
1 <= config.RetryCount (cfg s) ->
Z.of_nat k < config.RetryCount (cfg s) ->
(forall i, (i < k)%nat -> is_Some (attemptError env (fetches w + i))) ->
attemptResult env (exchange env (fetches w + k)) = (posts, None) ->
(forall i, (i < k)%nat -> backoffCancelled env (backoffs w + i) = false) ->
fst (fetchPosts env s w) = (posts, None) /\
fetches (snd (fetchPosts env s w)) = (fetches w + k + 1)%nat /\
trace (snd (fetchPosts env s w)) = trace w ++ retryTrace (fetches w) k /\
waitsOf (retryTrace (fetches w) k) = (fun i => i * time_Second) <$> seqZ 1 (Z.of_nat k).

End props.

(** ** Package server *)
Module server.
Import models.

(** What a handler writes: a JSON body with status 200, or [http.Error]. *)
Inductive HTTPResponse : Type :=
| PostsJSON (posts : list TransformedPost) (count limit offset : Z)
| http_Error (message : string) (code : Z).

Section Server.

Context {W : Type} (storage_ : storage.Storage W).
Context (strconv_Atoi : string -> Z * option error).

(** [handlePosts]; [limitStr] and [offsetStr] are the values of the query
    parameters, empty when absent. *)
Definition handlePosts (method limitStr offsetStr : string) (w : W) : HTTPResponse * W :=
if decide (method <> "GET") then (http_Error "Method not allowed" 405, w)
else
  let limit :=
    if decide (limitStr <> "") then
      match strconv_Atoi limitStr with
      | (l, None) => if decide (0 < l) then l else 10
      | (_, Some _) => 10
      end
    else 10 in
  let offset :=
    if decide (offsetStr <> "") then
      match strconv_Atoi offsetStr with
      | (o, None) => if decide (0 <= o) then o else 0
      | (_, Some _) => 0
      end
    else 0 in
  match storage.GetPosts storage_ limit offset w with
  | ((_, Some err), w1) => (http_Error ("Failed to retrieve posts: " +:+ Error err) 500, w1)
  | ((posts, None), w1) => (PostsJSON posts (Z.of_nat (length posts)) limit offset, w1)
  end.

End Server.

End server.

(** ** Sample inputs

    The fixtures of the repository's tests, as inputs to run the embedding
    on: a storage double that answers every call with a fixed error value,
    the test server that fails twice with status 500 before it serves one
    post, and a server that never recovers. *)
Module fixtures.
Import models ingestion.

Definition MockStorage (storeErr : option error) : storage.Storage unit :=
{| storage.StorePosts := fun _ w => (storeErr, w);
   storage.GetPosts := fun _ _ w => (([], None), w);
   storage.GetPostByID := fun _ w => ((None, None), w);
   storage.UpdateIngestionStatus := fun _ w => (None, w);
   storage.GetIngestionStatus := fun w => ((None, None), w);
   storage.Close := fun w => (None, w) |}.

Definition testPosts : list Post :=
[ {| UserID := 1; ID := 1; Title := "Test Post 1"; Body := "Test body 1" |} ].

Definition testBody : string := "[test post 1]".

Definition testUnmarshal (body : string) : list Post * option error :=
if decide (body = testBody) then (testPosts, None)
else ([], Some (errors_New "invalid character")).

Definition context_Canceled : error := errors_New "context canceled".

Definition testTime : Time := {| unixNano := 1700000000000000000; location := Local |}.

(** Fails the first [failures] requests with status 500, then serves
    [testBody]; the context is never cancelled. *)
Definition flakyServer (failures : Z) : Env :=
{| exchange := fun n =>
     if Z.of_nat n <? failures then Response 500 (BodyBytes "")
     else Response 200 (BodyBytes testBody);
   json_Unmarshal := testUnmarshal;
   backoffCancelled := fun _ => false;
   tickCancelled := fun _ => false;
   now := fun _ => testTime;
   ctx_Err := context_Canceled |}.

(** Always answers with status 500; the context is cancelled during the
    [cancelAt]-th backoff and at the [stopAt]-th select of the loop. *)
Definition brokenServer (cancelAt stopAt : nat) : Env :=
{| exchange := fun _ => Response 500 (BodyBytes "");
   json_Unmarshal := testUnmarshal;
   backoffCancelled := fun n => bool_decide (n = cancelAt);
   tickCancelled := fun n => bool_decide (n = stopAt);
   now := fun _ => testTime;
   ctx_Err := context_Canceled |}.

Definition testService (retryCount : Z) (storeErr : option error) : Service unit :=
{| cfg := {| config.APIEndpoint := "http://127.0.0.1:8000";
             config.Interval := 5 * time_Minute;
             config.Timeout := 30 * time_Second;
             config.RetryCount := retryCount |};
   storage_ := MockStorage storeErr |}.

Definition freshWorld : World unit := mkWorld 0 0 0 0 [] tt.

(** Serves the first request and answers every later one with status 500;
    the context is cancelled at the [stopAt]-th select of the loop. *)
Definition degradingServer (stopAt : nat) : Env :=
{| exchange := fun n =>
     if decide (n = 0%nat) then Response 200 (BodyBytes testBody)
     else Response 500 (BodyBytes "");
   json_Unmarshal := testUnmarshal;
   backoffCancelled := fun _ => false;
   tickCancelled := fun n => bool_decide (n = stopAt);
   now := fun _ => testTime;
   ctx_Err := context_Canceled |}.

(** The DynamoDB backend of the default configuration over the in-memory
    database, with both of its tables in place and empty. *)
Definition testTable : storage.DynamoDBStorage := {| storage.tableName := "ingested_data" |}.

Definition emptyTables : gmap string (list (gmap string storage.AttributeValue)) :=
<[ "ingested_data" := [] ]> (<[ "ingested_data_status" := [] ]> ∅).

Definition dynamoService (retryCount : Z)
  : Service (gmap string (list (gmap string storage.AttributeValue))) :=
{| cfg := {| config.APIEndpoint := "http://127.0.0.1:8000";
             config.Interval := 5 * time_Minute;
             config.Timeout := 30 * time_Second;
             config.RetryCount := retryCount |};
   storage_ := storage.DynamoDB_Storage memdb.client memdb.codec testTable |}.

Definition storedPost (id : Z) (title : string) : TransformedPost :=
{| Post_ := {| UserID := 1; ID := id; Title := title; Body := "Test body" |};
   IngestedAt := {| unixNano := 1700000000000000000; location := UTC |};
   Source := "placeholder_api" |}.

(** The posts table after two posts were stored. *)
Definition twoPosts : gmap string (list (gmap string storage.AttributeValue)) :=
snd (storage.DynamoDB_StorePosts memdb.client memdb.codec testTable
       [storedPost 1 "Test Post 1"; storedPost 2 "Test Post 2"] emptyTables).

(** A client that cannot reach the service. *)
Definition unreachable : error := errors_New "RequestError: send request failed".

Definition offlineClient : storage.DynamoDBAPI unit :=
{| storage.session_NewSession := fun _ _ w => (None, w);
   storage.DescribeTable := fun _ w => (Some unreachable, w);
   storage.CreateTable := fun _ w => (Some unreachable, w);
   storage.WaitUntilTableExists := fun _ w => (Some unreachable, w);
   storage.PutItemWithContext := fun _ _ w => (Some unreachable, w);
   storage.ScanWithContext := fun _ _ w => (([], Some unreachable), w);
   storage.GetItemWithContext := fun _ _ w => ((None, Some unreachable), w) |}.

End fixtures.

(** ** Package ingestion: the constructor *)
Module wiring.
Import ingestion.

(** [NewService]; the HTTP client it makes, with the configured timeout, is
    behind the exchanges of the environment. *)
Definition NewService {W : Type} (cfg : config.IngestionConfig) (store : storage.Storage W)
  : Service W :=
{| cfg := cfg; storage_ := store |}.

End wiring.

(** ** Package server: the other handlers *)
Module handlers.
Import models.

(** What a handler writes: a JSON body with status 200, or [http.Error]. *)
Inductive Reply (A : Type) : Type :=
| JSON (body : A)
| http_Error (message : string) (code : Z).

Arguments JSON {A} _.
Arguments http_Error {A} _ _.

Section Handlers.

Context {W : Type} (storage_ : storage.Storage W).
Context (strconv_Atoi : string -> Z * option error).

(** [handlePostByID]; [path] is [r.URL.Path]. *)
Definition handlePostByID (method path : string) (w : W) : Reply TransformedPost * W :=
if decide (method <> "GET") then (http_Error "Method not allowed" 405, w)
else if decide (String.length path < 7)%nat then (http_Error "Invalid post ID" 400, w)
else
  let idStr := substring 7 (String.length path - 7) path in
  match strconv_Atoi idStr with
  | (_, Some _) => (http_Error "Invalid post ID" 400, w)
  | (id, None) =>
    match storage.GetPostByID storage_ id w with
    | ((_, Some err), w1) =>
      (http_Error ("Failed to retrieve post: " +:+ Error err) 500, w1)
    | ((None, None), w1) => (http_Error "Post not found" 404, w1)
    | ((Some post, None), w1) => (JSON post, w1)
    end
  end.

(** [handleStatus]; a nil status pointer is encoded as JSON [null]. *)
Definition handleStatus (method : string) (w : W) : Reply (option IngestionStatus) * W :=
if decide (method <> "GET") then (http_Error "Method not allowed" 405, w)
else
  match storage.GetIngestionStatus storage_ w with
  | ((_, Some err), w1) =>
    (http_Error ("Failed to retrieve status: " +:+ Error err) 500, w1)
  | ((status, None), w1) => (JSON status, w1)
  end.

End Handlers.

End handlers.

(** ** Further vocabulary and sample inputs *)
Module more.
Import models ingestion.

(** The environment variables [Load] reads. *)
Definition configKeys : list string :=
[ "STORAGE_TYPE"; "AWS_REGION"; "TABLE_NAME"; "DYNAMODB_ENDPOINT"; "MONGODB_URI";
  "POSTGRES_URI"; "API_ENDPOINT"; "INGESTION_INTERVAL"; "API_TIMEOUT"; "RETRY_COUNT";
  "SERVER_PORT" ].

(** The configuration of the documented defaults. *)
Definition defaultConfig : config.Config :=
{| config.Storage :=
     {| config.Type_ := "dynamodb"; config.Region := "us-west-2";
        config.TableName := "ingested_data"; config.Endpoint := "";
        config.MongoDBURI := ""; config.PostgresURI := "" |};
   config.Ingestion :=
     {| config.APIEndpoint := "https://jsonplaceholder.typicode.com/posts";
        config.Interval := 5 * time_Minute; config.Timeout := 30 * time_Second;
        config.RetryCount := 3 |};
   config.Server := {| config.Port := 8080 |} |}.

(** The sum of a list of durations. *)
Definition totalWait (waits : list Duration) : Z := foldr Z.add 0 waits.

(** The stamp [transformPosts] puts on a post. *)
Definition stamped (now : Time) (post : Post) : TransformedPost :=
{| Post_ := post; IngestedAt := now; Source := "placeholder_api" |}.

(** The item [UpdateIngestionStatus] writes for a marshalled status. *)
Definition statusItem (item : gmap string storage.AttributeValue)
  : gmap string storage.AttributeValue :=
<[ "id" := storage.AttrS "ingestion_status" ]> item.

(** The in-memory client with a write quota: it refuses to put the item
    whose ["id"] is the number [id]. *)
Definition refusingClient (id : string)
  : storage.DynamoDBAPI (gmap string (list (gmap string storage.AttributeValue))) :=
{| storage.session_NewSession := storage.session_NewSession memdb.client;
   storage.DescribeTable := storage.DescribeTable memdb.client;
   storage.CreateTable := storage.CreateTable memdb.client;
   storage.WaitUntilTableExists := storage.WaitUntilTableExists memdb.client;
   storage.PutItemWithContext := fun name item db =>
     if decide (item !! "id" = Some (storage.AttrN id)) then
       (Some (errors_New "ProvisionedThroughputExceededException"), db)
     else storage.PutItemWithContext memdb.client name item db;
   storage.ScanWithContext := storage.ScanWithContext memdb.client;
   storage.GetItemWithContext := storage.GetItemWithContext memdb.client |}.

End more.

(** * Verified properties *)

(** ** The parsers

    [Atoi] and [ParseDuration] on the inputs of the Go library's own tests
    and on the values the configuration is given. *)
Example Atoi_examples :
  Atoi "3" = (3, None) /\ Atoi "-17" = (-17, None) /\ Atoi "+8080" = (8080, None) /\
  snd (Atoi "abc") = Some strconv_ErrSyntax /\ snd (Atoi "") = Some strconv_ErrSyntax /\
  snd (Atoi "3.5") = Some strconv_ErrSyntax /\
  snd (Atoi "9223372036854775808") = Some strconv_ErrRange.
Proof. vm_compute. repeat split. Qed.

Example Atoi_range :
  Atoi "-9223372036854775808" = (MinInt64, None) /\
  Atoi "-9223372036854775809" = (MinInt64, Some strconv_ErrRange) /\
  Atoi "9223372036854775807" = (MaxInt64, None) /\
  Atoi "99999999999999999999x" = (MaxInt64, Some strconv_ErrRange) /\
  Atoi "-" = (0, Some strconv_ErrSyntax) /\ Atoi "1_000" = (0, Some strconv_ErrSyntax).
Proof. vm_compute. repeat split. Qed.

Example ParseDuration_examples :
  ParseDuration "5m" = (300000000000, None) /\ ParseDuration "30s" = (30000000000, None) /\
  is_Some (snd (ParseDuration "soon")) /\ is_Some (snd (ParseDuration "5")).
Proof. vm_compute. repeat split; eauto. Qed.

Example ParseDuration_signs_groups_fractions :
  ParseDuration "0" = (0, None) /\ ParseDuration "-0" = (0, None) /\
  ParseDuration "-5m" = (- (5 * time_Minute), None) /\
  ParseDuration "+5s" = (5 * time_Second, None) /\
  ParseDuration "1h30m" = (90 * time_Minute, None) /\
  ParseDuration "1.5h" = (90 * time_Minute, None) /\
  ParseDuration ".5s" = (500 * time_Millisecond, None) /\
  ParseDuration "5.s" = (5 * time_Second, None) /\
  ParseDuration "-2m3.4s" = (- (2 * time_Minute + 3 * time_Second + 400 * time_Millisecond), None) /\
  ParseDuration "1h2m3s4ms5us6ns" = (3723004005006, None) /\
  ParseDuration ("12" +:+ micro_sign +:+ "s") = (12 * time_Microsecond, None) /\
  ParseDuration ("12" +:+ greek_mu +:+ "s") = (12 * time_Microsecond, None).
Proof. vm_compute. repeat split. Qed.

Example ParseDuration_rounding :
  ParseDuration "0.3333333333333333333h" = (20 * time_Minute, None) /\
  ParseDuration "0.100000000000000000000h" = (6 * time_Minute, None) /\
  ParseDuration "0.830103483285477580700h" = (2988372539827, None) /\
  ParseDuration "9007199254740993ns" = (2 ^ 53 + 1, None) /\
  ParseDuration "9223372036854775.807us" = (MaxInt64, None) /\
  ParseDuration "-9223372036854775.808us" = (MinInt64, None) /\
  ParseDuration "-2562047h47m16.854775808s" = (MinInt64, None).
Proof. vm_compute. repeat split. Qed.

Example ParseDuration_errors :
  Error <$> snd (ParseDuration "") = Some ("time: invalid duration " +:+ quote "") /\
  Error <$> snd (ParseDuration "3") = Some ("time: missing unit in duration " +:+ quote "3") /\
  Error <$> snd (ParseDuration "1d") =
    Some ("time: unknown unit " +:+ quote "d" +:+ " in duration " +:+ quote "1d") /\
  Error <$> snd (ParseDuration ".s") = Some ("time: invalid duration " +:+ quote ".s") /\
  Error <$> snd (ParseDuration "9223372036854775808ns") =
    Some ("time: invalid duration " +:+ quote "9223372036854775808ns") /\
  Error <$> snd (ParseDuration "3000000h") = Some ("time: invalid duration " +:+ quote "3000000h") /\
  Error <$> snd (ParseDuration "9223372036s854ms775us808ns") =
    Some ("time: invalid duration " +:+ quote "9223372036s854ms775us808ns").
Proof. vm_compute. repeat split. Qed.

Lemma leadingInt_from_length (s : string) : forall x v rest,
  leadingInt_from s x = Some (v, rest) -> (String.length rest <= String.length s)%nat.
Proof.
  induction s as [|c s IH]; intros x v rest; cbn [leadingInt_from].
  - intros [= _ <-]. done.
  - destruct (negb (isDigit c)); [intros [= _ <-]; done|].
    case_match; [done|]. case_match; [done|]. intros Hrest. apply IH in Hrest.
    cbn [String.length]. lia.
Qed.

Lemma leadingFraction_from_length (s : string) : forall x scale overflow,
  (String.length (snd (leadingFraction_from s x scale overflow)) <= String.length s)%nat.
Proof.
  induction s as [|c s IH]; intros x scale overflow; cbn [leadingFraction_from]; [done|].
  destruct (negb (isDigit c)); [done|].
  repeat case_match; cbn [String.length]; by apply Nat.le_le_succ_r.
Qed.

Lemma splitUnit_length (s : string) :
  String.length s = (String.length (fst (splitUnit s)) + String.length (snd (splitUnit s)))%nat.
Proof.
  induction s as [|c s IH]; cbn [splitUnit]; [done|].
  case_match; [done|]. destruct (splitUnit s) as [u rest]. cbn [fst snd String.length] in *. lia.
Qed.

(** The loop of [ParseDuration] needs no more fuel than [s] has bytes. *)
Lemma durationLoop_fuel (orig : string) (fuel : nat) : forall fuel' s d,
  (String.length s <= fuel)%nat -> (String.length s <= fuel')%nat ->
  durationLoop fuel orig s d = durationLoop fuel' orig s d.
Proof.
  induction fuel as [|fuel IH]; intros fuel' s d Hfuel Hfuel'.
  { destruct s; [by destruct fuel'|]. cbn [String.length] in Hfuel. lia. }
  destruct s as [|c s]; [by destruct fuel'|].
  destruct fuel' as [|fuel']; [cbn [String.length] in Hfuel'; lia|].
  cbn [durationLoop]. case_match; [done|].
  destruct (leadingInt (String c s)) as [[v s1]|] eqn:Hint; [|done].
  apply leadingInt_from_length in Hint.
  assert (exists f scale s2 post,
            match s1 with
            | String dot r =>
              if byte dot =? 46 then
                let '(f, scale, s2) := leadingFraction r in
                (f, scale, s2, negb (String.length r =? String.length s2)%nat)
              else (0, float64_of_uint64 1, s1, false)
            | "" => (0, float64_of_uint64 1, s1, false)
            end = (f, scale, s2, post) /\
            (String.length s2 <= String.length s1)%nat) as (f & scale & s2 & post & -> & Hs2).
  { destruct s1 as [|dot r]; [by eexists _, _, _, _|].
    case_match; [|by eexists _, _, _, _].
    pose proof (leadingFraction_from_length r 0 (float64_of_uint64 1) false) as Hr.
    unfold leadingFraction. destruct (leadingFraction_from r 0 _ false) as [[f scale] s2].
    eexists _, _, _, _. split; [done|]. cbn [snd String.length] in *. lia. }
  case_match; [done|].
  pose proof (splitUnit_length s2) as Hunit.
  destruct (splitUnit s2) as [u s3]. cbn [fst snd] in Hunit.
  case_bool_decide as Hu; [done|].
  destruct (unitMap_lookup u) as [unit_|]; [|done].
  repeat case_match; try done;
    (apply IH; (destruct u; [done|cbn [String.length] in *; lia])).
Qed.

(** Running the state monad: unfold the binds and the primitive effects. *)
Ltac run_M :=
  repeat first
    [ progress cbn beta iota delta
        [ingestion.fetches ingestion.backoffs ingestion.ticks ingestion.clockReads
         ingestion.trace ingestion.store fst snd]
    | progress unfold mbind, mret, ingestion.M_bind, ingestion.M_ret,
        ingestion.fetchPostsOnce, ingestion.httpExchange, ingestion.selectBackoff,
        ingestion.selectTick, ingestion.time_Now, ingestion.fmt_Printf, ingestion.emit,
        ingestion.storage_StorePosts ].

(** ** The retry loop of fetchPosts *)
Section FetchPosts.
Import models ingestion props.

Context {W : Type} (env : Env) (s : Service W).

Lemma fetchPosts_from_fail_wait remaining attempt lastErr (w : World W) e :
  attemptError env (fetches w) = Some e ->
  attempt < config.RetryCount (cfg s) - 1 ->
  backoffCancelled env (backoffs w) = false ->
  fetchPosts_from env s (S remaining) attempt lastErr w =
  fetchPosts_from env s remaining (attempt + 1) (Some e)
    (mkWorld (S (fetches w)) (S (backoffs w)) (ticks w) (clockReads w)
       (trace w ++ [EvAttempt (fetches w);
                    EvBackoff (Duration_mul (attempt + 1) time_Second) false])
       (store w)).
Proof.
  intros He Hlt Hc. unfold attemptError in He.
  cbn [fetchPosts_from]. run_M.
  destruct (attemptResult env (exchange env (fetches w))) as [posts oe].
  simpl in He. subst oe. run_M.
  destruct (decide (attempt < config.RetryCount (cfg s) - 1)) as [_|]; [|lia].
  run_M. rewrite Hc. rewrite <- app_assoc. reflexivity.
Qed.

Lemma fetchPosts_from_backoffRun k : forall remaining attempt lastErr (w : World W),
  attempt + Z.of_nat k < config.RetryCount (cfg s) ->
  (forall i, (i < k)%nat -> is_Some (attemptError env (fetches w + i))) ->
  (forall i, (i < k)%nat -> backoffCancelled env (backoffs w + i) = false) ->
  exists lastErr',
    (k = 0%nat -> lastErr' = lastErr) /\
    (forall j, k = S j -> lastErr' = attemptError env (fetches w + j)) /\
    fetchPosts_from env s (k + remaining) attempt lastErr w =
    fetchPosts_from env s remaining (attempt + Z.of_nat k) lastErr'
      (mkWorld (fetches w + k) (backoffs w + k) (ticks w) (clockReads w)
         (trace w ++ backoffRun (fetches w) attempt k) (store w)).
Proof.
  induction k as [|k IH]; intros remaining attempt lastErr w Hlt Hfail Hwait.
  - exists lastErr. split; [done|]. split; [discriminate|].
    cbn [backoffRun]. rewrite app_nil_r, Z.add_0_r, !Nat.add_0_r, Nat.add_0_l.
    by destruct w.
  - destruct (Hfail 0%nat ltac:(lia)) as [e He]. rewrite Nat.add_0_r in He.
    pose proof (Hwait 0%nat ltac:(lia)) as Hc. rewrite Nat.add_0_r in Hc.
    change (S k + remaining)%nat with (S (k + remaining)).
    rewrite (fetchPosts_from_fail_wait (k + remaining) attempt lastErr w e He ltac:(lia) Hc).
    edestruct (IH remaining (attempt + 1) (Some e)) as (l' & H0 & HS & Heq);
      [| | | rewrite Heq].
    + cbn [fetches]. lia.
    + intros i Hi. cbn [fetches]. replace (S (fetches w) + i)%nat with (fetches w + S i)%nat by lia.
      apply Hfail. lia.
    + intros i Hi. cbn [backoffs]. replace (S (backoffs w) + i)%nat with (backoffs w + S i)%nat by lia.
      apply Hwait. lia.
    + exists l'. split; [discriminate|]. split.
      * intros j [= <-]. destruct k as [|k'].
        -- rewrite (H0 eq_refl), Nat.add_0_r. done.
        -- rewrite (HS k' eq_refl). cbn [fetches]. f_equal. lia.
      * cbn [fetches backoffs ticks clockReads trace store backoffRun].
        rewrite <- app_assoc. cbn [app].
        f_equal; [lia|]. f_equal; lia.
Qed.

Lemma fetchPosts_from_success remaining attempt lastErr (w : World W) posts :
  attemptResult env (exchange env (fetches w)) = (posts, None) ->
  fetchPosts_from env s (S remaining) attempt lastErr w =
  ((posts, None),
   mkWorld (S (fetches w)) (backoffs w) (ticks w) (clockReads w)
     (trace w ++ [EvAttempt (fetches w)]) (store w)).
Proof. intros Hok. cbn [fetchPosts_from]. run_M. by rewrite Hok. Qed.

Lemma fetchPosts_from_last_failure attempt lastErr (w : World W) e :
  attemptError env (fetches w) = Some e ->
  ~ attempt < config.RetryCount (cfg s) - 1 ->
  fetchPosts_from env s 1 attempt lastErr w =
  (([], Some (fmt_Errorf
                ("failed after " +:+ fmt_d (config.RetryCount (cfg s)) +:+ " attempts")
                (Some e))),
   mkWorld (S (fetches w)) (backoffs w) (ticks w) (clockReads w)
     (trace w ++ [EvAttempt (fetches w)]) (store w)).
Proof.
  intros He Hge. unfold attemptError in He. cbn [fetchPosts_from]. run_M.
  destruct (attemptResult env (exchange env (fetches w))) as [posts oe].
  simpl in He. subst oe. run_M.
  by destruct (decide (attempt < config.RetryCount (cfg s) - 1)).
Qed.

Lemma fetchPosts_from_cancelled remaining attempt lastErr (w : World W) :
  is_Some (attemptError env (fetches w)) ->
  attempt < config.RetryCount (cfg s) - 1 ->
  backoffCancelled env (backoffs w) = true ->
  fetchPosts_from env s (S remaining) attempt lastErr w =
  (([], Some (ctx_Err env)),
   mkWorld (S (fetches w)) (S (backoffs w)) (ticks w) (clockReads w)
     (trace w ++ [EvAttempt (fetches w);
                  EvBackoff (Duration_mul (attempt + 1) time_Second) true])
     (store w)).
Proof.
  intros [e He] Hlt Hc. unfold attemptError in He. cbn [fetchPosts_from]. run_M.
  destruct (attemptResult env (exchange env (fetches w))) as [posts oe].
  simpl in He. subst oe. run_M.
  destruct (decide (attempt < config.RetryCount (cfg s) - 1)) as [_|]; [|lia].
  run_M. rewrite Hc. by rewrite <- app_assoc.
Qed.

(** [k] failures and then a success, with the waits as the code computes
    them. *)
Lemma fetchPosts_failures_then_success (w : World W) (k : nat) posts :
  Z.of_nat k < config.RetryCount (cfg s) ->
  (forall i, (i < k)%nat -> is_Some (attemptError env (fetches w + i))) ->
  attemptResult env (exchange env (fetches w + k)) = (posts, None) ->
  (forall i, (i < k)%nat -> backoffCancelled env (backoffs w + i) = false) ->
  fetchPosts env s w =
  ((posts, None),
   mkWorld (fetches w + k + 1) (backoffs w + k) (ticks w) (clockReads w)
     (trace w ++ backoffRun (fetches w) 0 k ++ [EvAttempt (fetches w + k)]) (store w)).
Proof.
  intros Hk Hfail Hok Hwait. unfold fetchPosts.
  replace (Z.to_nat (config.RetryCount (cfg s)))
    with (k + S (Z.to_nat (config.RetryCount (cfg s)) - k - 1))%nat by lia.
  destruct (fetchPosts_from_backoffRun k
              (S (Z.to_nat (config.RetryCount (cfg s)) - k - 1)) 0 None w)
    as (l' & _ & _ & ->); [lia|done|done|].
  rewrite (fetchPosts_from_success _ _ _ _ posts) by done.
  cbn [fetches backoffs ticks clockReads trace store].
  rewrite <- app_assoc. do 2 f_equal. lia.
Qed.

(** [m + 1] failures with a retry count of [m + 1]: every attempt but the
    last is followed by a backoff. *)
Lemma fetchPosts_all_fail_run (w : World W) (m : nat) cause :
  Z.to_nat (config.RetryCount (cfg s)) = S m ->
  (forall i, (i < m)%nat -> is_Some (attemptError env (fetches w + i))) ->
  attemptError env (fetches w + m) = Some cause ->
  (forall i, (i < m)%nat -> backoffCancelled env (backoffs w + i) = false) ->
  fetchPosts env s w =
  (([], Some (fmt_Errorf
                ("failed after " +:+ fmt_d (config.RetryCount (cfg s)) +:+ " attempts")
                (Some cause))),
   mkWorld (fetches w + m + 1) (backoffs w + m) (ticks w) (clockReads w)
     (trace w ++ backoffRun (fetches w) 0 m ++ [EvAttempt (fetches w + m)]) (store w)).
Proof.
  intros Hn Hfail Hlast Hwait. unfold fetchPosts. rewrite Hn.
  replace (S m) with (m + 1)%nat by lia.
  destruct (fetchPosts_from_backoffRun m 1 0 None w) as (l' & _ & _ & ->); [lia|done|done|].
  rewrite (fetchPosts_from_last_failure _ _ _ cause); cbn [fetches]; [|done|lia].
  cbn [fetches backoffs ticks clockReads trace store].
  rewrite <- app_assoc. do 2 f_equal. lia.
Qed.

Lemma Duration_mul_seconds (n : Z) :
  0 <= n <= 9223372036 -> Duration_mul n time_Second = n * time_Second.
Proof.
  intros Hn. unfold Duration_mul, wrap64, time_Second.
  rewrite Z.mod_small; lia.
Qed.

Lemma backoffRun_flat_map k : forall first attempt,
  backoffRun first attempt k =
  flat_map
    (fun i => [EvAttempt (first + i);
               EvBackoff (Duration_mul (attempt + Z.of_nat i + 1) time_Second) false])
    (seq 0 k).
Proof.
  induction k as [|k IH]; intros first attempt; [done|].
  cbn [backoffRun seq flat_map app]. rewrite IH, Nat.add_0_r, Z.add_0_r.
  do 2 f_equal. rewrite <- seq_shift, !flat_map_concat_map, map_map.
  f_equal. apply map_ext. intros i.
  replace (attempt + 1 + Z.of_nat i + 1) with (attempt + Z.of_nat (S i) + 1) by lia.
  by rewrite Nat.add_succ_comm.
Qed.

Lemma waitsOf_attempts_backoffs (f : nat -> nat) (g : nat -> Duration) l x :
  waitsOf (flat_map (fun i => [EvAttempt (f i); EvBackoff (g i) false]) l ++ [EvAttempt x])
  = g <$> l.
Proof.
  induction l as [|i l IH]; [done|].
  cbn [flat_map app fmap list_fmap]. unfold waitsOf in *. cbn [omap list_omap].
  by rewrite IH.
Qed.

Lemma waitsOf_retryTrace first k :
  waitsOf (retryTrace first k) = (fun i => i * time_Second) <$> seqZ 1 (Z.of_nat k).
Proof.
  unfold retryTrace.
  rewrite (waitsOf_attempts_backoffs (fun i => (first + i)%nat)
             (fun i => (Z.of_nat i + 1) * time_Second)).
  unfold seqZ. rewrite Nat2Z.id, <- list_fmap_compose. apply list_fmap_ext.
  intros _ i _. done.
Qed.

End FetchPosts.

(** ** Claims about fetchPosts *)
Section FetchPostsClaims.
Import models ingestion props.

Context {W : Type} (env : Env) (s : Service W).

(** C1 (amended).  For every retry count N >= 1 and every k < N with
    k <= 9223372036 (so that k seconds is a [time.Duration]): if the first k
    attempts fail, attempt k+1 succeeds and no backoff is cut short by
    cancellation, then [fetchPosts] returns the fetched posts after exactly
    k+1 attempts, having waited 1 s, 2 s, ..., k s, one wait before each
    retry and none after the last attempt. *)
Theorem fetchPosts_retry_success (w : World W) (k : nat) (posts : list Post) :
  Z.of_nat k <= 9223372036 -> retryProperty env s w k posts.
Proof.
  intros Hbound _ Hk Hfail Hok Hwait.
  rewrite (fetchPosts_failures_then_success env s w k posts Hk Hfail Hok Hwait).
  cbn [fst snd fetches trace]. split; [done|]. split; [done|].
  split; [|apply waitsOf_retryTrace].
  f_equal. unfold retryTrace. f_equal.
  rewrite backoffRun_flat_map, !flat_map_concat_map. f_equal. apply map_ext_in.
  intros i Hi%in_seq. rewrite Z.add_0_l, Duration_mul_seconds by lia. done.
Qed.

(** C4.  For every retry count N >= 1, if all N attempts fail and no backoff
    is cut short by cancellation, [fetchPosts] returns no posts and the
    error "failed after N attempts" that wraps the error of the last
    attempt, after exactly N attempts. *)
Theorem fetchPosts_all_attempts_fail (w : World W) :
  1 <= config.RetryCount (cfg s) ->
  (forall i, (i < Z.to_nat (config.RetryCount (cfg s)))%nat ->
     is_Some (attemptError env (fetches w + i))) ->
  (forall i, (i + 1 < Z.to_nat (config.RetryCount (cfg s)))%nat ->
     backoffCancelled env (backoffs w + i) = false) ->
  exists cause err,
    attemptError env (fetches w + (Z.to_nat (config.RetryCount (cfg s)) - 1)) = Some cause /\
    fst (fetchPosts env s w) = ([], Some err) /\
    err = fmt_Errorf
            ("failed after " +:+ fmt_d (config.RetryCount (cfg s)) +:+ " attempts")
            (Some cause) /\
    Unwrap err = Some cause /\
    Error err =
      ("failed after " +:+ fmt_d (config.RetryCount (cfg s)) +:+ " attempts") +:+ ": "
        +:+ Error cause /\
    fetches (snd (fetchPosts env s w)) =
      (fetches w + Z.to_nat (config.RetryCount (cfg s)))%nat.
Proof.
  intros HN Hfail Hwait.
  destruct (Z.to_nat (config.RetryCount (cfg s))) as [|m] eqn:Hn; [lia|].
  destruct (Hfail m ltac:(lia)) as [cause Hcause].
  exists cause, (fmt_Errorf
                   ("failed after " +:+ fmt_d (config.RetryCount (cfg s)) +:+ " attempts")
                   (Some cause)).
  rewrite Nat.sub_succ, Nat.sub_0_r. split; [done|].
  rewrite (fetchPosts_all_fail_run env s w m cause); try done.
  - cbn [fst snd fetches]. repeat split; try done. lia.
  - intros i Hi. apply Hfail. lia.
  - intros i Hi. apply Hwait. lia.
Qed.

(** C5.  If the context is cancelled while [fetchPosts] waits out the
    backoff after a failed attempt, it stops at once and returns the
    context's error, not the error of the failed attempt: no further attempt
    is made and the cancelled wait is the last thing it does. *)
Theorem fetchPosts_cancelled_during_backoff (w : World W) (j : nat) :
  Z.of_nat j + 1 < config.RetryCount (cfg s) ->
  (forall i, (i <= j)%nat -> is_Some (attemptError env (fetches w + i))) ->
  (forall i, (i < j)%nat -> backoffCancelled env (backoffs w + i) = false) ->
  backoffCancelled env (backoffs w + j) = true ->
  fst (fetchPosts env s w) = ([], Some (ctx_Err env)) /\
  fetches (snd (fetchPosts env s w)) = (fetches w + j + 1)%nat /\
  last (trace (snd (fetchPosts env s w))) =
    Some (EvBackoff (Duration_mul (Z.of_nat j + 1) time_Second) true).
Proof.
  intros Hj Hfail Hwait Hcancel. unfold fetchPosts.
  replace (Z.to_nat (config.RetryCount (cfg s)))
    with (j + S (Z.to_nat (config.RetryCount (cfg s)) - j - 1))%nat by lia.
  destruct (fetchPosts_from_backoffRun env s j
              (S (Z.to_nat (config.RetryCount (cfg s)) - j - 1)) 0 None w)
    as (l' & _ & _ & ->); [lia| |done|].
  { intros i Hi. apply Hfail. lia. }
  rewrite fetchPosts_from_cancelled; cbn [fetches backoffs]; [|by apply Hfail|lia|done].
  cbn [fst snd fetches trace]. split; [done|]. split; [lia|].
  match goal with
  | |- last (?l ++ [?a; ?b]) = _ =>
    change (l ++ [a; b]) with (l ++ ([a] ++ [b])); rewrite (app_assoc l [a] [b]), last_snoc
  end.
  by rewrite Z.add_0_l.
Qed.

(** The code after the loop, when the loop body never runs. *)
Lemma fetchPosts_nonpositive (w : World W) :
  config.RetryCount (cfg s) <= 0 ->
  fetchPosts env s w =
  (([], Some (fmt_Errorf
                ("failed after " +:+ fmt_d (config.RetryCount (cfg s)) +:+ " attempts")
                None)), w).
Proof. intros HN. unfold fetchPosts. by rewrite Z2Nat.nonpos. Qed.

(** C10.  With a retry count of zero or less, [fetchPosts] makes no attempt
    and returns "failed after N attempts" wrapping no cause; the ingestion
    cycle fails on it, and so does [Start], before anything else happens. *)
Theorem nonpositive_retry_count_fails_startup (w : World W) (rounds : nat) :
  config.RetryCount (cfg s) <= 0 ->
  let err :=
    fmt_Errorf ("failed after " +:+ fmt_d (config.RetryCount (cfg s)) +:+ " attempts") None in
  fetchPosts env s w = (([], Some err), w) /\
  Unwrap err = None /\
  IngestData env s w = (Some (fmt_Errorf "failed to fetch posts" (Some err)), w) /\
  Start env s rounds w =
    (Returned (Some (fmt_Errorf "initial ingestion failed"
                       (Some (fmt_Errorf "failed to fetch posts" (Some err))))), w).
Proof.
  intros HN err. pose proof (fetchPosts_nonpositive w HN) as Hf. fold err in Hf.
  assert (IngestData env s w = (Some (fmt_Errorf "failed to fetch posts" (Some err)), w)) as Hi.
  { unfold IngestData. run_M. by rewrite Hf. }
  repeat split; try done.
  unfold Start. run_M. by rewrite Hi.
Qed.

End FetchPostsClaims.

(** *** The claims about fetchPosts on the test fixtures *)
Section FetchPostsRuns.
Import models ingestion props fixtures.

(** The run of the repository's retry test: two failures, then one post. *)
Lemma fetchPosts_retry_success_witness :
  fst (fetchPosts (flakyServer 2) (testService 3 None) freshWorld) = (testPosts, None) /\
  fetches (snd (fetchPosts (flakyServer 2) (testService 3 None) freshWorld)) = 3%nat /\
  trace (snd (fetchPosts (flakyServer 2) (testService 3 None) freshWorld)) =
    [EvAttempt 0; EvBackoff 1000000000 false;
     EvAttempt 1; EvBackoff 2000000000 false; EvAttempt 2] /\
  waitsOf (retryTrace 0 2) = [1000000000; 2000000000].
Proof.
  apply (fetchPosts_retry_success (flakyServer 2) (testService 3 None) freshWorld 2 testPosts).
  - lia.
  - simpl. lia.
  - simpl. lia.
  - intros i Hi. destruct i as [|[|i]]; [vm_compute; eauto..|lia].
  - reflexivity.
  - reflexivity.
Defined.

(** The run of the repository's retry-limit test: three failures. *)
Lemma fetchPosts_all_attempts_fail_witness :
  fst (fetchPosts (brokenServer 99 99) (testService 3 None) freshWorld) =
    ([], Some (fmt_Errorf "failed after 3 attempts"
                 (Some (errors_New "API returned status 500")))) /\
  fetches (snd (fetchPosts (brokenServer 99 99) (testService 3 None) freshWorld)) = 3%nat.
Proof.
  destruct (fetchPosts_all_attempts_fail (brokenServer 99 99) (testService 3 None) freshWorld)
    as (cause & err & Hcause & Hfst & Herr & _ & _ & Hn).
  - simpl. lia.
  - intros i _. vm_compute. eauto.
  - intros i Hi. apply bool_decide_eq_false. simpl in Hi. simpl. lia.
  - vm_compute in Hcause. injection Hcause as <-. subst err. split; [exact Hfst|exact Hn].
Defined.

(** Cancellation during the second backoff of a service with three attempts. *)
Lemma fetchPosts_cancelled_during_backoff_witness :
  fst (fetchPosts (brokenServer 1 99) (testService 3 None) freshWorld) =
    ([], Some context_Canceled) /\
  fetches (snd (fetchPosts (brokenServer 1 99) (testService 3 None) freshWorld)) = 2%nat /\
  last (trace (snd (fetchPosts (brokenServer 1 99) (testService 3 None) freshWorld))) =
    Some (EvBackoff 2000000000 true).
Proof.
  apply (fetchPosts_cancelled_during_backoff
           (brokenServer 1 99) (testService 3 None) freshWorld 1).
  - simpl. lia.
  - intros i _. vm_compute. eauto.
  - intros i Hi. apply bool_decide_eq_false. simpl. lia.
  - reflexivity.
Defined.

(** A retry count of zero against a server that works. *)
Lemma nonpositive_retry_count_fails_startup_witness :
  fetchPosts (flakyServer 0) (testService 0 None) freshWorld =
    (([], Some (fmt_Errorf "failed after 0 attempts" None)), freshWorld) /\
  Start (flakyServer 0) (testService 0 None) 5 freshWorld =
    (Returned
       (Some (fmt_Errorf "initial ingestion failed"
                (Some (fmt_Errorf "failed to fetch posts"
                         (Some (fmt_Errorf "failed after 0 attempts" None)))))),
     freshWorld).
Proof.
  destruct (nonpositive_retry_count_fails_startup
              (flakyServer 0) (testService 0 None) freshWorld 5) as (Hf & _ & _ & Hs).
  - simpl. lia.
  - split; [exact Hf|exact Hs].
Defined.

Lemma Duration_mul_wraps :
  Duration_mul 9223372037 time_Second = -9223372036709551616.
Proof. vm_compute. reflexivity. Qed.

(** C1, as stated, fails.  A service with a retry count of 9223372038 whose
    first 9223372037 attempts fail asks, before its last retry, for a wait
    of 9223372037 s: that many nanoseconds are beyond the 64-bit
    [time.Duration], and the wait the code computes wraps to a negative
    value. *)
Lemma fetchPosts_retry_long_backoff_wraps :
  ~ retryProperty (flakyServer 9223372037) (testService 9223372038 None) freshWorld
      (Z.to_nat 9223372037) testPosts.
Proof.
  pose proof (Z2Nat.id 9223372037 ltac:(lia)) as HkZ.
  generalize dependent (Z.to_nat 9223372037). intros k HkZ.
  assert (forall i, (i < k)%nat ->
            is_Some (attemptError (flakyServer 9223372037) (fetches freshWorld + i))) as Hfail.
  { intros i Hi. unfold attemptError, flakyServer, freshWorld.
    cbn [exchange fetches Nat.add].
    destruct (Z.ltb_spec (Z.of_nat i) 9223372037) as [_|]; [|lia]. vm_compute. eauto. }
  assert (attemptResult (flakyServer 9223372037)
            (exchange (flakyServer 9223372037) (fetches freshWorld + k)) = (testPosts, None))
    as Hok.
  { unfold flakyServer, freshWorld. cbn [exchange fetches Nat.add].
    destruct (Z.ltb_spec (Z.of_nat k) 9223372037) as [|_]; [lia|]. reflexivity. }
  assert (forall i, (i < k)%nat ->
            backoffCancelled (flakyServer 9223372037) (backoffs freshWorld + i) = false)
    as Hwait by done.
  assert (Z.of_nat k < config.RetryCount (cfg (testService 9223372038 None))) as Hlt.
  { cbn [config.RetryCount cfg testService]. lia. }
  assert (1 <= config.RetryCount (cfg (testService 9223372038 None))) as Hpos.
  { cbn [config.RetryCount cfg testService]. lia. }
  intros Hclaim. destruct (Hclaim Hpos Hlt Hfail Hok Hwait) as (_ & _ & Htrace & _).
  rewrite (fetchPosts_failures_then_success _ _ _ k testPosts Hlt Hfail Hok Hwait) in Htrace.
  cbn [snd trace] in Htrace. apply app_inv_head in Htrace.
  apply (f_equal waitsOf) in Htrace.
  rewrite backoffRun_flat_map in Htrace. unfold retryTrace in Htrace.
  rewrite (waitsOf_attempts_backoffs (fun i => (fetches freshWorld + i)%nat)
             (fun i => Duration_mul (0 + Z.of_nat i + 1) time_Second)) in Htrace.
  rewrite (waitsOf_attempts_backoffs (fun i => (fetches freshWorld + i)%nat)
             (fun i => (Z.of_nat i + 1) * time_Second)) in Htrace.
  apply (f_equal (fun l => l !! (k - 1)%nat)) in Htrace.
  rewrite !list_lookup_fmap, lookup_seq_lt in Htrace by lia.
  cbn [fmap option_fmap option_map] in Htrace.
  replace (0 + Z.of_nat (0 + (k - 1)) + 1) with 9223372037 in Htrace by lia.
  replace (Z.of_nat (0 + (k - 1)) + 1) with 9223372037 in Htrace by lia.
  rewrite Duration_mul_wraps in Htrace. injection Htrace as Htrace.
  unfold time_Second in Htrace. lia.
Qed.

End FetchPostsRuns.

(** ** transformPosts *)
Section TransformPosts.
Import models ingestion props.

Context {W : Type} (env : Env).

(** Filling a zeroed slice index by index gives the image of the input. *)
Lemma fill_by_index {A B : Type} (f : A -> B) (z : B) (rest : list A) :
  forall filled : list B,
  foldl (fun acc '(i, x) => <[ i := f x ]> acc)
    (filled ++ replicate (length rest) z)
    (imap (fun j x => ((length filled + j)%nat, x)) rest)
  = filled ++ (f <$> rest).
Proof.
  induction rest as [|x rest IH]; intros filled; [done|].
  rewrite imap_cons. cbn [foldl length replicate fmap list_fmap].
  rewrite insert_app_r. cbn [insert list_insert].
  rewrite (cons_middle (f x) filled (replicate _ _)), app_assoc.
  rewrite (cons_middle (f x) filled (f <$> rest)), app_assoc.
  rewrite <- (IH (filled ++ [f x])). f_equal.
  apply imap_ext. intros j y _. unfold compose. rewrite length_app. cbn [length].
  f_equal. lia.
Qed.

(** C3.  [transformPosts] maps every post, in order, to a record that holds
    the post unchanged, the UTC form of the one clock reading the call
    makes, and the source tag "placeholder_api"; the clock is read exactly
    once per call and nothing else happens. *)
Theorem transformPosts_stamps_batch (posts : list Post) (w : World W) :
  let stamp := Time_UTC (now env (clockReads w)) in
  let out := fst (transformPosts env posts w) in
  out = (fun post => {| Post_ := post; IngestedAt := stamp; Source := "placeholder_api" |})
          <$> posts /\
  length out = length posts /\
  (forall i, Post_ <$> out !! i = posts !! i) /\
  (forall t, t ∈ out -> IngestedAt t = stamp /\ Source t = "placeholder_api") /\
  snd (transformPosts env posts w) =
    mkWorld (fetches w) (backoffs w) (ticks w) (S (clockReads w))
      (trace w ++ [EvNow (clockReads w)]) (store w).
Proof.
  intros stamp out.
  assert (out = (fun post => {| Post_ := post; IngestedAt := stamp;
                                Source := "placeholder_api" |}) <$> posts) as Hout.
  { subst out stamp. unfold transformPosts. run_M.
    exact (fill_by_index _ TransformedPost_zero posts []). }
  split; [exact Hout|]. rewrite Hout. split; [by rewrite length_fmap|]. split; [|split].
  - intros i. rewrite list_lookup_fmap. by destruct (posts !! i).
  - intros t (post & -> & _)%list_elem_of_fmap. done.
  - done.
Qed.

End TransformPosts.

(** ** IngestData and the storage *)
Section IngestData.
Import models ingestion props.

Context {W : Type} (env : Env) (s : Service W).

Lemma storageCallsOf_app l1 l2 :
  storageCallsOf (l1 ++ l2) = storageCallsOf l1 ++ storageCallsOf l2.
Proof. unfold storageCallsOf. apply omap_app. Qed.

(** What [fetchPosts] leaves alone: it only appends attempts and backoffs. *)
Lemma fetchPosts_from_frame remaining : forall attempt lastErr (w : World W),
  exists new,
    trace (snd (fetchPosts_from env s remaining attempt lastErr w)) = trace w ++ new /\
    storageCallsOf new = [] /\
    store (snd (fetchPosts_from env s remaining attempt lastErr w)) = store w /\
    ticks (snd (fetchPosts_from env s remaining attempt lastErr w)) = ticks w /\
    clockReads (snd (fetchPosts_from env s remaining attempt lastErr w)) = clockReads w.
Proof.
  induction remaining as [|remaining IH]; intros attempt lastErr w.
  - exists []. cbn [fetchPosts_from]. run_M. by rewrite app_nil_r.
  - cbn [fetchPosts_from]. run_M.
    destruct (attemptResult env (exchange env (fetches w))) as [posts [err|]]; run_M.
    + destruct (decide (attempt < config.RetryCount (cfg s) - 1)); run_M.
      * destruct (backoffCancelled env (backoffs w)); run_M.
        -- eexists. rewrite <- app_assoc. split; [reflexivity|]. done.
        -- edestruct IH as (new & -> & Hcalls & -> & -> & ->).
           cbn [fetches backoffs ticks clockReads trace store].
           eexists. rewrite <- !app_assoc. split; [reflexivity|].
           by rewrite !storageCallsOf_app, Hcalls.
      * edestruct IH as (new & -> & Hcalls & -> & -> & ->).
        cbn [fetches backoffs ticks clockReads trace store].
        eexists. rewrite <- !app_assoc. split; [reflexivity|].
        by rewrite !storageCallsOf_app, Hcalls.
    + eexists. split; [reflexivity|]. done.
Qed.

(** One cycle either stops at the fetch and leaves the storage alone, or
    calls [StorePosts] once, and nothing else, on the storage. *)
Lemma IngestData_frame (w : World W) :
  exists new,
    trace (snd (IngestData env s w)) = trace w ++ new /\
    ticks (snd (IngestData env s w)) = ticks w /\
    ((is_Some (fst (IngestData env s w)) /\ storageCallsOf new = [] /\
      store (snd (IngestData env s w)) = store w) \/
     (exists posts,
        storageCallsOf new = [CallStorePosts posts] /\
        store (snd (IngestData env s w)) =
          snd (storage.StorePosts (storage_ s) posts (store w)) /\
        (fst (IngestData env s w) = None <->
         fst (storage.StorePosts (storage_ s) posts (store w)) = None))).
Proof.
  unfold IngestData, fetchPosts. run_M.
  destruct (fetchPosts_from_frame (Z.to_nat (config.RetryCount (cfg s))) 0 None w)
    as (new & Htrace & Hcalls & Hstore & Hticks & _).
  destruct (fetchPosts_from env s (Z.to_nat (config.RetryCount (cfg s))) 0 None w)
    as [[posts [err|]] w1]; cbn [snd] in *; run_M.
  - exists new. split; [done|]. split; [done|]. left. eauto.
  - unfold transformPosts. run_M. rewrite Hstore, Htrace, Hticks.
    set (out := foldl _ _ _).
    destruct (storage.StorePosts (storage_ s) out (store w)) as [[err|] st] eqn:Hst; run_M.
    + eexists. rewrite <- !app_assoc. split; [reflexivity|]. split; [done|].
      right. exists out. rewrite !storageCallsOf_app, Hcalls. by rewrite Hst.
    + eexists. rewrite <- !app_assoc. split; [reflexivity|]. split; [done|].
      right. exists out. rewrite !storageCallsOf_app, Hcalls. by rewrite Hst.
Qed.

(** C6.  Whether it succeeds or fails, a cycle calls no storage operation
    other than [StorePosts], at most once; it never calls
    [UpdateIngestionStatus].  On a backend whose [StorePosts] does not
    touch the status record, the status reads the same after the cycle as
    before it, so a failed cycle does not make it read as a success. *)
Theorem IngestData_only_stores_posts (w : World W) :
  exists new,
    trace (snd (IngestData env s w)) = trace w ++ new /\
    (storageCallsOf new = [] \/ exists posts, storageCallsOf new = [CallStorePosts posts]) /\
    (forall status, CallUpdateIngestionStatus status ∉ storageCallsOf new) /\
    ((forall posts st,
        fst (storage.GetIngestionStatus (storage_ s)
               (snd (storage.StorePosts (storage_ s) posts st))) =
        fst (storage.GetIngestionStatus (storage_ s) st)) ->
     fst (storage.GetIngestionStatus (storage_ s) (store (snd (IngestData env s w)))) =
     fst (storage.GetIngestionStatus (storage_ s) (store w))).
Proof.
  destruct (IngestData_frame w) as (new & Htrace & _ & Hcases).
  exists new. split; [done|].
  destruct Hcases as [(_ & -> & ->)|(posts & -> & -> & _)].
  - split; [by left|]. split; [|done]. intros status Hin. by apply elem_of_nil in Hin.
  - split; [right; by exists posts|]. split; [|by intros ->].
    intros status Hin%list_elem_of_singleton. discriminate.
Qed.

End IngestData.

(** ** Start and the periodic loop *)
Section Start.
Import models ingestion props.

Context {W : Type} (env : Env) (s : Service W).

Lemma IngestData_ticks (w : World W) : ticks (snd (IngestData env s w)) = ticks w.
Proof. by destruct (IngestData_frame env s w) as (_ & _ & ? & _). Qed.

(** One round of the loop when the ticker wins the select: a cycle runs,
    its error, if any, is printed, and the loop goes on. *)
Lemma periodicLoop_tick rounds (w : World W) :
  tickCancelled env (ticks w) = false ->
  exists w1,
    periodicLoop env s (S rounds) w = periodicLoop env s rounds w1 /\
    ticks w1 = S (ticks w).
Proof.
  intros Htick. cbn [periodicLoop]. run_M. rewrite Htick.
  set (w0 := mkWorld _ _ _ _ _ _).
  pose proof (IngestData_ticks w0) as Hticks.
  destruct (IngestData env s w0) as [[err|] w1]; cbn [snd] in Hticks; run_M;
    eexists; (split; [reflexivity|]); cbn [ticks]; by rewrite Hticks.
Qed.

Lemma periodicLoop_cancel rounds (w : World W) :
  tickCancelled env (ticks w) = true ->
  periodicLoop env s (S rounds) w =
  (Returned (Some (ctx_Err env)),
   mkWorld (fetches w) (backoffs w) (S (ticks w)) (clockReads w)
     (trace w ++ [EvSelectTick true; EvTickerStop]) (store w)).
Proof.
  intros Htick. cbn [periodicLoop]. run_M. rewrite Htick. run_M.
  by rewrite <- app_assoc.
Qed.

(** A periodic cycle that fails is printed, and the loop goes on. *)
Lemma periodicLoop_logs_cycle_error rounds (w : World W) e w1 :
  tickCancelled env (ticks w) = false ->
  IngestData env s (snd (selectTick env w)) = (Some e, w1) ->
  periodicLoop env s (S rounds) w =
  periodicLoop env s rounds
    (mkWorld (fetches w1) (backoffs w1) (ticks w1) (clockReads w1)
       (trace w1 ++ [EvPrint ("Ingestion error: " +:+ Error e +:+ newline)]) (store w1)).
Proof.
  intros Htick Hcycle. cbn [periodicLoop]. unfold selectTick in Hcycle. cbn [snd] in Hcycle.
  run_M. rewrite Htick in *. by rewrite Hcycle.
Qed.

(** While the ticker wins, the loop is still running, whatever the cycles
    return. *)
Lemma periodicLoop_running rounds : forall w : World W,
  (forall i, (i < rounds)%nat -> tickCancelled env (ticks w + i) = false) ->
  fst (periodicLoop env s rounds w) = Running /\
  ticks (snd (periodicLoop env s rounds w)) = (ticks w + rounds)%nat.
Proof.
  induction rounds as [|rounds IH]; intros w Hticks.
  - cbn [periodicLoop]. run_M. split; [done|lia].
  - destruct (periodicLoop_tick rounds w) as (w1 & -> & Hw1).
    { rewrite <- (Nat.add_0_r (ticks w)). apply Hticks. lia. }
    destruct (IH w1) as [-> ->]; [|split; [done|lia]].
    intros i Hi. rewrite Hw1. replace (S (ticks w) + i)%nat with (ticks w + S i)%nat by lia.
    apply Hticks. lia.
Qed.

(** The first select the context wins ends the loop with the context's
    error, after stopping the ticker. *)
Lemma periodicLoop_cancelled j : forall rounds (w : World W),
  (j < rounds)%nat ->
  (forall i, (i < j)%nat -> tickCancelled env (ticks w + i) = false) ->
  tickCancelled env (ticks w + j) = true ->
  fst (periodicLoop env s rounds w) = Returned (Some (ctx_Err env)) /\
  ticks (snd (periodicLoop env s rounds w)) = (ticks w + j + 1)%nat /\
  last (trace (snd (periodicLoop env s rounds w))) = Some EvTickerStop.
Proof.
  induction j as [|j IH]; intros rounds w Hj Hticks Hcancel.
  - destruct rounds as [|rounds]; [lia|]. rewrite Nat.add_0_r in Hcancel.
    rewrite periodicLoop_cancel by done. cbn [fst snd ticks trace].
    split; [done|]. split; [lia|].
    change [EvSelectTick true; EvTickerStop] with ([EvSelectTick true] ++ [EvTickerStop]).
    by rewrite app_assoc, last_snoc.
  - destruct rounds as [|rounds]; [lia|].
    destruct (periodicLoop_tick rounds w) as (w1 & -> & Hw1).
    { rewrite <- (Nat.add_0_r (ticks w)). apply Hticks. lia. }
    destruct (IH rounds w1) as (-> & -> & ->); [lia| | |split; [done|split; [lia|done]]].
    + intros i Hi. rewrite Hw1.
      replace (S (ticks w) + i)%nat with (ticks w + S i)%nat by lia. apply Hticks. lia.
    + rewrite Hw1. by replace (S (ticks w) + j)%nat with (ticks w + S j)%nat by lia.
Qed.

(** The loop returns only when the context wins a select. *)
Lemma periodicLoop_returns_only_cancelled rounds : forall (w : World W) r,
  fst (periodicLoop env s rounds w) = Returned r ->
  r = Some (ctx_Err env) /\
  exists j, (j < rounds)%nat /\ tickCancelled env (ticks w + j) = true.
Proof.
  induction rounds as [|rounds IH]; intros w r Hret.
  - cbn [periodicLoop] in Hret. discriminate.
  - destruct (tickCancelled env (ticks w)) eqn:Htick.
    + rewrite periodicLoop_cancel in Hret by done. injection Hret as <-.
      split; [done|]. exists 0%nat. rewrite Nat.add_0_r. split; [lia|done].
    + destruct (periodicLoop_tick rounds w Htick) as (w1 & Heq & Hw1).
      rewrite Heq in Hret. destruct (IH w1 r Hret) as (-> & j & Hj & Hc).
      split; [done|]. exists (S j). split; [lia|].
      rewrite Hw1 in Hc. by replace (ticks w + S j)%nat with (S (ticks w) + j)%nat by lia.
Qed.

(** A round the ticker wins: the cycle runs in the world the select left,
    its error, if any, is printed, and the next round starts from there. *)
Lemma periodicLoop_tick_cycle (w : World W) :
  tickCancelled env (ticks w) = false ->
  let cycle :=
    IngestData env s
      (mkWorld (fetches w) (backoffs w) (S (ticks w)) (clockReads w)
         (trace w ++ [EvSelectTick false]) (store w)) in
  let w1 :=
    match fst cycle with
    | Some e =>
      mkWorld (fetches (snd cycle)) (backoffs (snd cycle)) (ticks (snd cycle))
        (clockReads (snd cycle))
        (trace (snd cycle) ++ [EvPrint ("Ingestion error: " +:+ Error e +:+ newline)])
        (store (snd cycle))
    | None => snd cycle
    end in
  ticks w1 = S (ticks w) /\
  forall rounds, periodicLoop env s (S rounds) w = periodicLoop env s rounds w1.
Proof.
  intros Htick cycle w1. subst w1 cycle.
  set (w0 := mkWorld _ _ _ _ _ _).
  pose proof (IngestData_ticks w0) as Hticks. split.
  - destruct (IngestData env s w0) as [[e|] w1]; cbn [fst snd ticks] in *; by rewrite Hticks.
  - intros rounds. cbn [periodicLoop]. run_M. rewrite Htick. fold w0.
    by destruct (IngestData env s w0) as [[e|] w1]; run_M.
Qed.

(** The last of [rounds + 1] rounds the ticker wins, from the world the
    [rounds] rounds before it left. *)
Lemma periodicLoop_last_tick rounds : forall w : World W,
  (forall i, (i <= rounds)%nat -> tickCancelled env (ticks w + i) = false) ->
  let before := snd (periodicLoop env s rounds w) in
  let cycle :=
    IngestData env s
      (mkWorld (fetches before) (backoffs before) (S (ticks before)) (clockReads before)
         (trace before ++ [EvSelectTick false]) (store before)) in
  periodicLoop env s (S rounds) w =
  (Running,
   match fst cycle with
   | Some e =>
     mkWorld (fetches (snd cycle)) (backoffs (snd cycle)) (ticks (snd cycle))
       (clockReads (snd cycle))
       (trace (snd cycle) ++ [EvPrint ("Ingestion error: " +:+ Error e +:+ newline)])
       (store (snd cycle))
   | None => snd cycle
   end).
Proof.
  induction rounds as [|rounds IH]; intros w Hticks; cbv zeta.
  - destruct (periodicLoop_tick_cycle w) as [_ ->]; [|done].
    rewrite <- (Nat.add_0_r (ticks w)). apply Hticks. lia.
  - destruct (periodicLoop_tick_cycle w) as [Hw1 Hstep].
    { rewrite <- (Nat.add_0_r (ticks w)). apply Hticks. lia. }
    rewrite (Hstep (S rounds)), (Hstep rounds). apply IH.
    intros i Hi. rewrite Hw1.
    replace (S (ticks w) + i)%nat with (ticks w + S i)%nat by lia. apply Hticks. lia.
Qed.

(** The select the context wins, from the world the rounds before it
    left: the ticker is stopped and no cycle runs any more, however many
    rounds are allowed. *)
Lemma periodicLoop_cancelled_at j : forall (w : World W) rounds,
  (forall i, (i < j)%nat -> tickCancelled env (ticks w + i) = false) ->
  tickCancelled env (ticks w + j) = true ->
  (j < rounds)%nat ->
  let before := snd (periodicLoop env s j w) in
  periodicLoop env s rounds w =
  (Returned (Some (ctx_Err env)),
   mkWorld (fetches before) (backoffs before) (S (ticks before)) (clockReads before)
     (trace before ++ [EvSelectTick true; EvTickerStop]) (store before)).
Proof.
  induction j as [|j IH]; intros w rounds Hticks Hcancel Hj; cbv zeta;
    (destruct rounds as [|rounds]; [lia|]).
  - rewrite Nat.add_0_r in Hcancel. by apply periodicLoop_cancel.
  - destruct (periodicLoop_tick_cycle w) as [Hw1 Hstep].
    { rewrite <- (Nat.add_0_r (ticks w)). apply Hticks. lia. }
    rewrite (Hstep rounds), (Hstep j). apply IH; [| |lia].
    + intros i Hi. rewrite Hw1.
      replace (S (ticks w) + i)%nat with (ticks w + S i)%nat by lia. apply Hticks. lia.
    + rewrite Hw1. by replace (S (ticks w) + j)%nat with (ticks w + S j)%nat by lia.
Qed.

(** After a first cycle that succeeds, [Start] makes the ticker and is in
    the loop. *)
Lemma Start_enters_loop (w : World W) :
  fst (IngestData env s w) = None ->
  0 < config.Interval (cfg s) ->
  let w1 := snd (IngestData env s w) in
  forall rounds,
    Start env s rounds w =
    periodicLoop env s rounds
      (mkWorld (fetches w1) (backoffs w1) (ticks w1) (clockReads w1)
         (trace w1 ++ [EvNewTicker (config.Interval (cfg s))]) (store w1)).
Proof.
  intros Hok Hpos w1 rounds. subst w1. unfold Start. run_M.
  destruct (IngestData env s w) as [[e|] w1]; [done|]. run_M.
  destruct (decide (config.Interval (cfg s) <= 0)); [lia|]. by run_M.
Qed.

(** How [Start] ends: with the error of a failing first cycle, or, once in
    the loop, only by the first select the context wins. *)
Lemma Start_outcomes (rounds : nat) (w : World W) :
  (forall e, fst (IngestData env s w) = Some e ->
     Start env s rounds w =
     (Returned (Some (fmt_Errorf "initial ingestion failed" (Some e))),
      snd (IngestData env s w))) /\
  (fst (IngestData env s w) = None ->
   0 < config.Interval (cfg s) ->
   (forall i, (i < rounds)%nat -> tickCancelled env (ticks w + i) = false) ->
   fst (Start env s rounds w) = Running /\
   ticks (snd (Start env s rounds w)) = (ticks w + rounds)%nat) /\
  (forall j, fst (IngestData env s w) = None ->
   0 < config.Interval (cfg s) ->
   (j < rounds)%nat ->
   (forall i, (i < j)%nat -> tickCancelled env (ticks w + i) = false) ->
   tickCancelled env (ticks w + j) = true ->
   fst (Start env s rounds w) = Returned (Some (ctx_Err env)) /\
   ticks (snd (Start env s rounds w)) = (ticks w + j + 1)%nat /\
   last (trace (snd (Start env s rounds w))) = Some EvTickerStop) /\
  (forall r, fst (Start env s rounds w) = Returned r ->
   (exists e, fst (IngestData env s w) = Some e /\
              r = Some (fmt_Errorf "initial ingestion failed" (Some e))) \/
   (fst (IngestData env s w) = None /\ r = Some (ctx_Err env) /\
    exists j, (j < rounds)%nat /\ tickCancelled env (ticks w + j) = true)).
Proof.
  pose proof (IngestData_ticks w) as Hticks.
  unfold Start. run_M.
  destruct (IngestData env s w) as [[e|] w1]; cbn [fst snd] in *; run_M.
  - split; [by intros ? [= <-]|]. split; [done|]. split; [done|].
    intros r [= <-]. left. by exists e.
  - split; [done|].
    destruct (decide (config.Interval (cfg s) <= 0)) as [Hle|_]; run_M.
    { split; [intros; lia|]. split; [intros; lia|]. by intros r [=]. }
    set (w2 := mkWorld _ _ _ _ _ _).
    assert (ticks w2 = ticks w) as Hw2 by done.
    split; [|split].
    + intros _ _ Hrun. rewrite <- Hw2. apply periodicLoop_running.
      intros i Hi. rewrite Hw2. by apply Hrun.
    + intros j _ _ Hj Hrun Hcancel. rewrite <- Hw2. apply periodicLoop_cancelled.
      * done.
      * intros i Hi. rewrite Hw2. by apply Hrun.
      * by rewrite Hw2.
    + intros r Hret. right. split; [done|].
      destruct (periodicLoop_returns_only_cancelled rounds w2 r Hret) as (-> & j & Hj & Hc).
      split; [done|]. exists j. by rewrite <- Hw2.
Qed.

(** C2.  [Start] runs one cycle first.  If that cycle fails, [Start]
    returns its error, wrapped, and does nothing more: no ticker, no loop.
    Otherwise it makes the ticker (its interval is positive) and enters
    the loop.  Every round the ticker wins runs one more cycle, from the
    world the round before left; the error of a cycle that fails is
    printed as "Ingestion error: ..." and [Start] is still running after
    it, as it is after any number of such rounds, whatever the cycles
    return.  The first select the context wins stops the ticker and
    returns the context's error, with no cycle run after it; and [Start]
    never returns in any other way. *)
Theorem Start_lifecycle (rounds : nat) (w : World W) :
  (forall e, fst (IngestData env s w) = Some e ->
     Start env s rounds w =
     (Returned (Some (fmt_Errorf "initial ingestion failed" (Some e))),
      snd (IngestData env s w))) /\
  (fst (IngestData env s w) = None ->
   0 < config.Interval (cfg s) ->
   let first := snd (IngestData env s w) in
   Start env s 0 w =
   (Running,
    mkWorld (fetches first) (backoffs first) (ticks first) (clockReads first)
      (trace first ++ [EvNewTicker (config.Interval (cfg s))]) (store first))) /\
  (fst (IngestData env s w) = None ->
   0 < config.Interval (cfg s) ->
   (forall i, (i <= rounds)%nat -> tickCancelled env (ticks w + i) = false) ->
   let before := snd (Start env s rounds w) in
   let cycle :=
     IngestData env s
       (mkWorld (fetches before) (backoffs before) (S (ticks before)) (clockReads before)
          (trace before ++ [EvSelectTick false]) (store before)) in
   Start env s (S rounds) w =
   (Running,
    match fst cycle with
    | Some e =>
      mkWorld (fetches (snd cycle)) (backoffs (snd cycle)) (ticks (snd cycle))
        (clockReads (snd cycle))
        (trace (snd cycle) ++ [EvPrint ("Ingestion error: " +:+ Error e +:+ newline)])
        (store (snd cycle))
    | None => snd cycle
    end)) /\
  (fst (IngestData env s w) = None ->
   0 < config.Interval (cfg s) ->
   (forall i, (i < rounds)%nat -> tickCancelled env (ticks w + i) = false) ->
   fst (Start env s rounds w) = Running /\
   ticks (snd (Start env s rounds w)) = (ticks w + rounds)%nat) /\
  (forall j, fst (IngestData env s w) = None ->
   0 < config.Interval (cfg s) ->
   (j < rounds)%nat ->
   (forall i, (i < j)%nat -> tickCancelled env (ticks w + i) = false) ->
   tickCancelled env (ticks w + j) = true ->
   let before := snd (Start env s j w) in
   Start env s rounds w =
   (Returned (Some (ctx_Err env)),
    mkWorld (fetches before) (backoffs before) (S (ticks before)) (clockReads before)
      (trace before ++ [EvSelectTick true; EvTickerStop]) (store before)) /\
   ticks (snd (Start env s rounds w)) = (ticks w + j + 1)%nat /\
   last (trace (snd (Start env s rounds w))) = Some EvTickerStop) /\
  (forall r, fst (Start env s rounds w) = Returned r ->
   (exists e, fst (IngestData env s w) = Some e /\
              r = Some (fmt_Errorf "initial ingestion failed" (Some e))) \/
   (fst (IngestData env s w) = None /\ r = Some (ctx_Err env) /\
    exists j, (j < rounds)%nat /\ tickCancelled env (ticks w + j) = true)).
Proof.
  destruct (Start_outcomes rounds w) as (Hfail & Hrun & Hcancel & Honly).
  pose proof (IngestData_ticks w) as Hticks.
  split; [exact Hfail|]. split; [|split; [|split; [exact Hrun|split; [|exact Honly]]]].
  - intros Hok Hpos first. by rewrite (Start_enters_loop w Hok Hpos).
  - intros Hok Hpos Hwins before cycle. subst cycle before.
    rewrite !(Start_enters_loop w Hok Hpos).
    apply periodicLoop_last_tick. intros i Hi. cbn [ticks]. rewrite Hticks. by apply Hwins.
  - intros j Hok Hpos Hj Hwins Hcancelled before. subst before.
    split; [|by apply Hcancel].
    rewrite !(Start_enters_loop w Hok Hpos).
    apply periodicLoop_cancelled_at; cbn [ticks]; rewrite ?Hticks; done.
Qed.

(** With an interval that is not positive, [Start] panics once the first
    cycle has succeeded. *)
Lemma Start_nonpositive_interval (rounds : nat) (w : World W) :
  fst (IngestData env s w) = None ->
  config.Interval (cfg s) <= 0 ->
  fst (Start env s rounds w) = Panicked "non-positive interval for NewTicker".
Proof.
  intros Hok Hle. unfold Start. run_M.
  destruct (IngestData env s w) as [[e|] w1]; [done|]. run_M.
  by destruct (decide (config.Interval (cfg s) <= 0)).
Qed.

End Start.

(** ** The storage backends *)
Section Storage.
Import models storage.

Context {W : Type} (client : DynamoDBAPI W) (codec : Codec).

(** A failing lookup is returned as an error. *)
Lemma DynamoDB_GetIngestionStatus_lookup_error (d : DynamoDBStorage) (w : W) item err w1 :
  GetItemWithContext client (tableName d +:+ "_status") statusKey w = ((item, Some err), w1) ->
  DynamoDB_GetIngestionStatus client codec d w =
  ((None, Some (fmt_Errorf "failed to get ingestion status" (Some err))), w1).
Proof. intros Hget. unfold DynamoDB_GetIngestionStatus. rewrite Hget. by destruct item. Qed.

(** [GetPosts] never looks at its [offset]. *)
Lemma DynamoDB_GetPosts_ignores_offset (d : DynamoDBStorage) (limit offset offset' : Z) (w : W) :
  DynamoDB_GetPosts client codec d limit offset w =
  DynamoDB_GetPosts client codec d limit offset' w.
Proof. reflexivity. Qed.

Lemma String_length_append (s1 s2 : string) :
  String.length (s1 +:+ s2) = (String.length s1 + String.length s2)%nat.
Proof. induction s1 as [|c s1 IH]; [done|]. simpl. f_equal. exact IH. Qed.

Lemma status_table_is_another_table (d : DynamoDBStorage) :
  tableName d <> tableName d +:+ "_status".
Proof.
  intros Heq. apply (f_equal String.length) in Heq.
  rewrite String_length_append in Heq. cbn in Heq. lia.
Qed.

(** The status read is a function of what the lookup returns. *)
Lemma DynamoDB_GetIngestionStatus_reads (d : DynamoDBStorage) (w w' : W) :
  fst (GetItemWithContext client (tableName d +:+ "_status") statusKey w) =
  fst (GetItemWithContext client (tableName d +:+ "_status") statusKey w') ->
  fst (DynamoDB_GetIngestionStatus client codec d w) =
  fst (DynamoDB_GetIngestionStatus client codec d w').
Proof.
  unfold DynamoDB_GetIngestionStatus.
  destruct (GetItemWithContext client _ _ w) as [[item err] w1].
  destruct (GetItemWithContext client _ _ w') as [[item' err'] w1'].
  cbn [fst]. intros [= -> ->].
  destruct item' as [item'|], err' as [err'|]; try done.
  by destruct (UnmarshalMap_status codec item') as [status [e|]].
Qed.

(** On a client whose writes to one table leave the reads of every other
    table alone, storing posts does not change what the status reads. *)
Lemma DynamoDB_StorePosts_preserves_status (d : DynamoDBStorage) :
  (forall t t' key item w,
     t <> t' ->
     fst (GetItemWithContext client t' key (snd (PutItemWithContext client t item w))) =
     fst (GetItemWithContext client t' key w)) ->
  forall posts w,
    fst (DynamoDB_GetIngestionStatus client codec d
           (snd (DynamoDB_StorePosts client codec d posts w))) =
    fst (DynamoDB_GetIngestionStatus client codec d w).
Proof.
  intros Hframe posts. induction posts as [|post posts IH]; intros w; [done|].
  cbn [DynamoDB_StorePosts].
  destruct (MarshalMap_post codec post) as [item [err|]]; [done|].
  pose proof (Hframe (tableName d) (tableName d +:+ "_status") statusKey item w
                (status_table_is_another_table d)) as Hput.
  destruct (PutItemWithContext client (tableName d) item w) as [[err|] w1]; cbn [snd] in *.
  - by apply DynamoDB_GetIngestionStatus_reads.
  - rewrite IH. by apply DynamoDB_GetIngestionStatus_reads.
Qed.

End Storage.

(** ** Loading the configuration *)
Section Config.
Import config configprops.

Context (environ : gmap string string).
Context (strconv_Atoi : string -> Z * option error).
Context (time_ParseDuration : string -> Duration * option error).





End Config.

(** *** The loader on concrete environments *)
Section ConfigRuns.
Import config configprops.



(** With STORAGE_TYPE=redis the storage cannot be constructed. *)
Example unsupported_storage_type_fails_construction :
  exists cfg,
    Load {[ "STORAGE_TYPE" := "redis" ]} Atoi ParseDuration = (Some cfg, None) /\
    Type_ (Storage cfg) = "redis" /\
    fst (storage.NewStorage memdb.client memdb.codec
           (fun _ w => ((None, None), w)) (fun _ w => ((None, None), w))
           (Storage cfg) fixtures.emptyTables)
    = (None, Some (errors_New "unsupported storage type: redis")).
Proof. eexists. split; [reflexivity|]. split; reflexivity. Qed.

(** An endpoint that is no URL is kept as it is. *)
Example malformed_endpoint_is_kept :
  exists cfg,
    Load {[ "API_ENDPOINT" := "not a url" ]} Atoi ParseDuration = (Some cfg, None) /\
    APIEndpoint (Ingestion cfg) = "not a url".
Proof. eexists. split; reflexivity. Qed.

(** The documented defaults, from an empty environment. *)
Example Load_defaults :
  Load ∅ Atoi ParseDuration =
  (Some {| Storage := {| Type_ := "dynamodb"; Region := "us-west-2";
                         TableName := "ingested_data"; Endpoint := "";
                         MongoDBURI := ""; PostgresURI := "" |};
           Ingestion := {| APIEndpoint := "https://jsonplaceholder.typicode.com/posts";
                           Interval := 300000000000; Timeout := 30000000000;
                           RetryCount := 3 |};
           Server := {| Port := 8080 |} |}, None).
Proof. reflexivity. Qed.

End ConfigRuns.

(** ** The backends on the in-memory database *)
Section StorageRuns.
Import models storage fixtures.

(** Writes to one table of the in-memory database leave the other tables
    alone. *)
Lemma memdb_put_frame (t t' : string) key item
  (db : gmap string (list (gmap string AttributeValue))) :
  t <> t' ->
  fst (GetItemWithContext memdb.client t' key (snd (PutItemWithContext memdb.client t item db)))
  = fst (GetItemWithContext memdb.client t' key db).
Proof.
  intros Hne. cbn [GetItemWithContext PutItemWithContext memdb.client].
  destruct (db !! t) as [rows|]; [|done]. cbn [snd].
  rewrite lookup_insert_ne by done. by destruct (db !! t').
Qed.

(** C7: the code at the failing input.  With two posts stored, the second
    page of size one, [GetPosts(1, 1)], is the first post again, as for
    [GetPosts(1, 0)], where the window the claim describes holds the second
    post; the handler passes the offset on and reports it back. *)
Theorem GetPosts_second_page_repeats_first :
  fst (DynamoDB_GetPosts memdb.client memdb.codec testTable 1 0 twoPosts)
    = ([storedPost 1 "Test Post 1"], None) /\
  fst (DynamoDB_GetPosts memdb.client memdb.codec testTable 1 1 twoPosts)
    = ([storedPost 1 "Test Post 1"], None) /\
  fst (DynamoDB_GetPosts memdb.client memdb.codec testTable 2 0 twoPosts)
    = ([storedPost 1 "Test Post 1"; storedPost 2 "Test Post 2"], None) /\
  take 1 (drop 1 [storedPost 1 "Test Post 1"; storedPost 2 "Test Post 2"])
    = [storedPost 2 "Test Post 2"] /\
  fst (server.handlePosts (DynamoDB_Storage memdb.client memdb.codec testTable) Atoi
         "GET" "1" "1" twoPosts)
    = server.PostsJSON [storedPost 1 "Test Post 1"] 1 1 1.
Proof. vm_compute. repeat split. Qed.

(** A client that cannot reach the service: the status read fails. *)
Example GetIngestionStatus_offline :
  DynamoDB_GetIngestionStatus offlineClient memdb.codec testTable tt =
  ((None, Some (fmt_Errorf "failed to get ingestion status" (Some unreachable))), tt).
Proof. reflexivity. Qed.

(** A written status is read back. *)
Example status_round_trip :
  let status :=
    {| LastSuccessfulRun := {| unixNano := 1700000000000000000; location := UTC |};
       LastAttempt := {| unixNano := 1700000300000000000; location := UTC |};
       Status := "success"; ErrorMessage := ""; RecordsIngested := 100 |} in
  fst (DynamoDB_GetIngestionStatus memdb.client memdb.codec testTable
         (snd (DynamoDB_UpdateIngestionStatus memdb.client memdb.codec testTable status
                 emptyTables)))
  = (Some status, None).
Proof. vm_compute. reflexivity. Qed.

End StorageRuns.

(** ** The status on a fresh database *)
Section FreshDatabase.
Import models storage ingestion handlers more fixtures.

(** C8: the code at the failing input.  On a database without tables, as
    DynamoDB Local starts, the constructor of the backend makes the posts
    table and nothing else.  No status record was ever written, and
    [GetIngestionStatus] returns no status and an error, for the status
    table is missing; GET /status is a 500.  A first ingestion cycle that
    succeeds changes nothing to that.  The default "never_run" is only
    returned once the status table is in place. *)
Theorem GetIngestionStatus_fails_on_fresh_database :
  let fresh := snd (NewDynamoDBStorage memdb.client (config.Storage defaultConfig) ∅) in
  let backend := DynamoDB_Storage memdb.client memdb.codec testTable in
  let cycle := IngestData (flakyServer 0) (dynamoService 3) (mkWorld 0 0 0 0 [] fresh) in
  fst (NewDynamoDBStorage memdb.client (config.Storage defaultConfig) ∅)
    = (Some testTable, None) /\
  fresh = {[ "ingested_data" := [] ]} /\
  fst (GetIngestionStatus backend fresh)
    = (None, Some (fmt_Errorf "failed to get ingestion status" (Some memdb.ResourceNotFound))) /\
  fst (handleStatus backend "GET" fresh)
    = http_Error ("Failed to retrieve status: failed to get ingestion status: "
                  +:+ Error memdb.ResourceNotFound) 500 /\
  fst cycle = None /\
  fst (GetIngestionStatus backend (store (snd cycle)))
    = (None, Some (fmt_Errorf "failed to get ingestion status" (Some memdb.ResourceNotFound))) /\
  fst (GetIngestionStatus backend emptyTables)
    = (Some {| LastSuccessfulRun := Time_zero; LastAttempt := Time_zero;
               Status := "never_run"; ErrorMessage := ""; RecordsIngested := 0 |}, None).
Proof. cbv zeta. repeat apply conj; vm_compute; reflexivity. Qed.

End FreshDatabase.

(** ** Cycles and the loop on the test fixtures *)
Section ServiceRuns.
Import models ingestion props fixtures.

(** The batch of the repository's transform test. *)
Example transformPosts_run :
  fst (transformPosts (flakyServer 0)
         [ {| UserID := 1; ID := 1; Title := "Test Post 1"; Body := "Test body 1" |};
           {| UserID := 1; ID := 2; Title := "Test Post 2"; Body := "Test body 2" |} ]
         freshWorld)
  = [ {| Post_ := {| UserID := 1; ID := 1; Title := "Test Post 1"; Body := "Test body 1" |};
         IngestedAt := {| unixNano := 1700000000000000000; location := UTC |};
         Source := "placeholder_api" |};
      {| Post_ := {| UserID := 1; ID := 2; Title := "Test Post 2"; Body := "Test body 2" |};
         IngestedAt := {| unixNano := 1700000000000000000; location := UTC |};
         Source := "placeholder_api" |} ].
Proof. reflexivity. Qed.

(** A cycle that stores a post on the DynamoDB backend: the status reads
    the same before and after. *)
Lemma IngestData_only_stores_posts_witness :
  fst (storage.DynamoDB_GetIngestionStatus memdb.client memdb.codec testTable
         (store (snd (IngestData (flakyServer 0) (dynamoService 3)
                        (mkWorld 0 0 0 0 [] emptyTables)))))
  = fst (storage.DynamoDB_GetIngestionStatus memdb.client memdb.codec testTable emptyTables).
Proof.
  destruct (IngestData_only_stores_posts (flakyServer 0) (dynamoService 3)
              (mkWorld 0 0 0 0 [] emptyTables)) as (new & _ & _ & _ & Hstatus).
  apply Hstatus. intros posts st.
  apply (DynamoDB_StorePosts_preserves_status memdb.client memdb.codec testTable).
  intros t t' key item db Hne. by apply memdb_put_frame.
Defined.

(** The storage calls of a cycle that succeeds and of one whose store
    fails. *)
Example IngestData_runs :
  IngestData (flakyServer 0) (testService 3 None) freshWorld
  = (None,
     mkWorld 1 0 0 1
       [EvAttempt 0; EvNow 0;
        EvStorage (CallStorePosts
          [ {| Post_ := {| UserID := 1; ID := 1; Title := "Test Post 1";
                           Body := "Test body 1" |};
               IngestedAt := {| unixNano := 1700000000000000000; location := UTC |};
               Source := "placeholder_api" |} ]);
        EvPrint ("Successfully ingested 1 posts" +:+ newline)] tt) /\
  fst (IngestData (flakyServer 0) (testService 3 (Some (errors_New "assert.AnError")))
         freshWorld)
  = Some (fmt_Errorf "failed to store posts" (Some (errors_New "assert.AnError"))).
Proof. vm_compute. split; reflexivity. Qed.

(** A failing first cycle ends [Start].  After a good first cycle the
    ticker is made; the cycle of the first tick fails, its error is
    printed and [Start] is still running, as it is after two ticks; the
    third select is won by the context, which ends [Start] with the
    context's error, the ticker stopped and no further cycle. *)
Lemma Start_lifecycle_witness :
  fst (Start (brokenServer 99 99) (testService 1 None) 5 freshWorld) =
    Returned
      (Some (fmt_Errorf "initial ingestion failed"
               (Some (fmt_Errorf "failed to fetch posts"
                        (Some (fmt_Errorf "failed after 1 attempts"
                                 (Some (errors_New "API returned status 500")))))))) /\
  (fst (Start (degradingServer 2) (testService 1 None) 0 freshWorld) = Running /\
   last (trace (snd (Start (degradingServer 2) (testService 1 None) 0 freshWorld))) =
     Some (EvNewTicker 300000000000)) /\
  (fst (Start (degradingServer 2) (testService 1 None) 1 freshWorld) = Running /\
   drop 5 (trace (snd (Start (degradingServer 2) (testService 1 None) 1 freshWorld))) =
     [EvSelectTick false; EvAttempt 1;
      EvPrint ("Ingestion error: failed to fetch posts: failed after 1 attempts: "
               +:+ "API returned status 500" +:+ newline)]) /\
  fst (Start (degradingServer 2) (testService 1 None) 2 freshWorld) = Running /\
  (fst (Start (degradingServer 2) (testService 1 None) 5 freshWorld) =
     Returned (Some context_Canceled) /\
   drop 11 (trace (snd (Start (degradingServer 2) (testService 1 None) 5 freshWorld))) =
     [EvSelectTick true; EvTickerStop] /\
   fetches (snd (Start (degradingServer 2) (testService 1 None) 5 freshWorld)) = 3%nat).
Proof.
  assert (forall n i : nat, (i < n)%nat -> (n <= 2)%nat ->
            tickCancelled (degradingServer 2) (ticks (@freshWorld) + i) = false) as Hwins.
  { intros n i Hi Hn. apply bool_decide_eq_false. simpl. lia. }
  split; [|split; [|split; [|split]]].
  - destruct (Start_lifecycle (brokenServer 99 99) (testService 1 None) 5 freshWorld)
      as (Hfail & _).
    rewrite (Hfail _ eq_refl). reflexivity.
  - destruct (Start_lifecycle (degradingServer 2) (testService 1 None) 0 freshWorld)
      as (_ & Hfirst & _).
    pose proof (Hfirst eq_refl eq_refl) as Hstart. cbv zeta in Hstart.
    rewrite Hstart. vm_compute. split; reflexivity.
  - destruct (Start_lifecycle (degradingServer 2) (testService 1 None) 0 freshWorld)
      as (_ & _ & Htick & _).
    pose proof (Htick eq_refl eq_refl (fun i Hi => Hwins 1%nat i ltac:(lia) ltac:(lia)))
      as Hstart.
    cbv zeta in Hstart. rewrite Hstart. vm_compute. split; reflexivity.
  - destruct (Start_lifecycle (degradingServer 2) (testService 1 None) 2 freshWorld)
      as (_ & _ & _ & Hrun & _).
    apply Hrun; [reflexivity|reflexivity|]. intros i Hi. by apply (Hwins 2%nat).
  - destruct (Start_lifecycle (degradingServer 2) (testService 1 None) 5 freshWorld)
      as (_ & _ & _ & _ & Hcancel & _).
    pose proof (Hcancel 2%nat eq_refl eq_refl ltac:(lia)
                  (fun i Hi => Hwins 2%nat i Hi ltac:(lia)) eq_refl) as Hstart.
    cbv zeta in Hstart. destruct Hstart as (Hstart & _).
    rewrite Hstart. vm_compute. repeat split.
Defined.

(** The errors of the periodic cycles are printed. *)
Example Start_prints_cycle_errors :
  trace (snd (Start (degradingServer 2) (testService 1 None) 5 freshWorld)) =
  [EvAttempt 0; EvNow 0;
   EvStorage (CallStorePosts
     [ {| Post_ := {| UserID := 1; ID := 1; Title := "Test Post 1"; Body := "Test body 1" |};
          IngestedAt := {| unixNano := 1700000000000000000; location := UTC |};
          Source := "placeholder_api" |} ]);
   EvPrint ("Successfully ingested 1 posts" +:+ newline);
   EvNewTicker 300000000000;
   EvSelectTick false; EvAttempt 1;
   EvPrint ("Ingestion error: failed to fetch posts: failed after 1 attempts: "
            +:+ "API returned status 500" +:+ newline);
   EvSelectTick false; EvAttempt 2;
   EvPrint ("Ingestion error: failed to fetch posts: failed after 1 attempts: "
            +:+ "API returned status 500" +:+ newline);
   EvSelectTick true; EvTickerStop].
Proof. vm_compute. reflexivity. Qed.

End ServiceRuns.

(** * Further properties *)

(** ** Every outcome of fetchPosts *)
Section FetchOutcomes.
Import models ingestion props more.

Context {W : Type} (env : Env) (s : Service W).

(** X1.  One attempt yields posts and no error exactly when the response
    has status 200 and its body is read and decoded; in every other case
    it yields an error and no posts, and a status other than 200 is named
    in the error.  An attempt consumes one exchange and does nothing else. *)
Theorem fetchPostsOnce_outcomes (w : World W) :
  let x := exchange env (fetches w) in
  let r := fst (fetchPostsOnce env w) in
  (snd r = None <->
   exists body, x = Response 200 (BodyBytes body) /\ json_Unmarshal env body = (fst r, None)) /\
  (is_Some (snd r) -> fst r = []) /\
  (forall code body, x = Response code body -> code <> 200 ->
     r = ([], Some (errors_New ("API returned status " +:+ fmt_d code)))) /\
  snd (fetchPostsOnce env w) =
    mkWorld (S (fetches w)) (backoffs w) (ticks w) (clockReads w)
      (trace w ++ [EvAttempt (fetches w)]) (store w).
Proof.
  intros x r. subst r. unfold fetchPostsOnce. run_M. fold x.
  split; [|split; [|split; [|done]]].
  - destruct x as [err|err|code [err|body]]; cbn [attemptResult]; repeat case_decide;
      try destruct (json_Unmarshal env body) as [posts [e|]] eqn:Hjson; cbn [fst snd];
      (split; [try done|try (intros (b & [=] & Hb); subst; try done)]).
    all: try (rewrite Hjson in Hb; done).
    all: try (intros _; eexists; split; [|eassumption]).
    all: try match goal with H : ~ _ <> _ |- _ => apply dec_stable in H; subst; done end.
    all: try congruence.
  - destruct x as [err|err|code [err|body]]; cbn [attemptResult]; repeat case_decide;
      try destruct (json_Unmarshal env body) as [posts [e|]]; cbn [fst snd]; try done;
      by intros [? [=]].
  - intros code body -> Hne. cbn [attemptResult]. by destruct (decide (code <> 200)).
Qed.

(** The outcomes of the retry loop when [remaining] is what the loop has
    left to run: a success after [k] failures, a backoff cut short after
    [j + 1] failures, or [remaining] failures. *)
Lemma fetchPosts_from_outcomes remaining : forall attempt lastErr (w : World W),
  Z.of_nat remaining = Z.max 0 (config.RetryCount (cfg s) - attempt) ->
  let r := fst (fetchPosts_from env s remaining attempt lastErr w) in
  let w' := snd (fetchPosts_from env s remaining attempt lastErr w) in
  (exists k posts,
     r = (posts, None) /\ (k < remaining)%nat /\
     fetches w' = (fetches w + k + 1)%nat /\ backoffs w' = (backoffs w + k)%nat /\
     attemptResult env (exchange env (fetches w + k)) = (posts, None) /\
     (forall i, (i < k)%nat -> is_Some (attemptError env (fetches w + i))) /\
     (forall i, (i < k)%nat -> backoffCancelled env (backoffs w + i) = false)) \/
  (exists j,
     r = ([], Some (ctx_Err env)) /\ (j + 1 < remaining)%nat /\
     fetches w' = (fetches w + j + 1)%nat /\ backoffs w' = (backoffs w + j + 1)%nat /\
     (forall i, (i <= j)%nat -> is_Some (attemptError env (fetches w + i))) /\
     (forall i, (i < j)%nat -> backoffCancelled env (backoffs w + i) = false) /\
     backoffCancelled env (backoffs w + j) = true) \/
  (exists last,
     r = ([], Some (fmt_Errorf
                      ("failed after " +:+ fmt_d (config.RetryCount (cfg s)) +:+ " attempts")
                      last)) /\
     fetches w' = (fetches w + remaining)%nat /\
     backoffs w' = (backoffs w + (remaining - 1))%nat /\
     (remaining = 0%nat -> last = lastErr) /\
     (forall m, remaining = S m -> last = attemptError env (fetches w + m)) /\
     (forall i, (i < remaining)%nat -> is_Some (attemptError env (fetches w + i))) /\
     (forall i, (i + 1 < remaining)%nat -> backoffCancelled env (backoffs w + i) = false)).
Proof.
  induction remaining as [|remaining IH]; intros attempt lastErr w Hinv r w'; subst r w'.
  { right. right. exists lastErr. cbn [fetchPosts_from]. run_M.
    repeat split; try done; try lia. }
  destruct (attemptResult env (exchange env (fetches w))) as [posts oe] eqn:Hres.
  destruct oe as [e|].
  2:{ left. exists 0%nat, posts. rewrite (fetchPosts_from_success env s _ _ _ _ posts Hres).
      cbn [fst snd fetches backoffs]. rewrite !Nat.add_0_r.
      repeat split; try done; try lia; intros i Hi; lia. }
  assert (attemptError env (fetches w) = Some e) as He by (unfold attemptError; by rewrite Hres).
  assert (is_Some (attemptError env (fetches w))) as Hsome by eauto.
  destruct (decide (attempt < config.RetryCount (cfg s) - 1)) as [Hlt|Hge].
  - destruct (backoffCancelled env (backoffs w)) eqn:Hc.
    + right. left. exists 0%nat.
      rewrite fetchPosts_from_cancelled by (done || eauto).
      cbn [fst snd fetches backoffs]. rewrite !Nat.add_0_r.
      repeat split; try done; try lia; intros i Hi;
        first [lia | replace i with 0%nat by lia; rewrite Nat.add_0_r; eauto].
    + rewrite (fetchPosts_from_fail_wait env s remaining attempt lastErr w e He Hlt Hc).
      set (w2 := mkWorld _ _ _ _ _ _).
      assert (forall P : nat -> Prop, P (fetches w) ->
                forall n, (forall i, (i < n)%nat -> P (fetches w2 + i)%nat) ->
                forall i, (i < S n)%nat -> P (fetches w + i)%nat) as Hshift.
      { intros P H0 n Hn [|i] Hi; [by rewrite Nat.add_0_r|].
        replace (fetches w + S i)%nat with (fetches w2 + i)%nat by (cbn; lia). apply Hn. lia. }
      assert (forall P : nat -> Prop, P (backoffs w) ->
                forall n, (forall i, (i < n)%nat -> P (backoffs w2 + i)%nat) ->
                forall i, (i < S n)%nat -> P (backoffs w + i)%nat) as Hshiftb.
      { intros P H0 n Hn [|i] Hi; [by rewrite Nat.add_0_r|].
        replace (backoffs w + S i)%nat with (backoffs w2 + i)%nat by (cbn; lia). apply Hn. lia. }
      destruct (IH (attempt + 1) (Some e) w2 ltac:(lia))
        as [(k & posts' & Hr & Hk & Hf & Hb & Hok & Hfail & Hwait)
           |[(j & Hr & Hj & Hf & Hb & Hfail & Hwait & Hcancel)
            |(last & Hr & Hf & Hb & H0 & HS & Hfail & Hwait)]].
      * left. exists (S k), posts'. rewrite Hr, Hf, Hb. cbn [fetches backoffs w2].
        split; [done|]. split; [lia|]. split; [lia|]. split; [lia|]. split.
        { rewrite <- Hok. do 2 f_equal. cbn. lia. }
        split.
        { apply (Hshift (fun n => is_Some (attemptError env n))); eauto. }
        { apply (Hshiftb (fun n => backoffCancelled env n = false)); eauto. }
      * right. left. exists (S j). rewrite Hr, Hf, Hb. cbn [fetches backoffs w2].
        split; [done|]. split; [lia|]. split; [lia|]. split; [lia|]. split.
        { intros i Hi. apply (Hshift (fun n => is_Some (attemptError env n)) Hsome (S j));
            [|lia].
          intros i' Hi'. apply Hfail. lia. }
        split.
        { apply (Hshiftb (fun n => backoffCancelled env n = false)); eauto. }
        { rewrite <- Hcancel. f_equal. cbn. lia. }
      * right. right. exists last. rewrite Hr, Hf, Hb. cbn [fetches backoffs w2].
        assert (remaining <> 0%nat) as Hpos by lia.
        split; [done|]. split; [lia|]. split; [lia|]. split; [done|]. split.
        { intros m [= <-]. destruct remaining as [|m']; [done|].
          rewrite (HS m' eq_refl). f_equal. cbn. lia. }
        split.
        { apply (Hshift (fun n => is_Some (attemptError env n))); eauto. }
        { intros i Hi. apply (Hshiftb (fun n => backoffCancelled env n = false) Hc
                                (remaining - 1)%nat); [|lia].
          intros i' Hi'. apply Hwait. lia. }
  - assert (remaining = 0%nat) as -> by lia.
    right. right. exists (Some e).
    rewrite (fetchPosts_from_last_failure env s attempt lastErr w e He Hge).
    cbn [fst snd fetches backoffs].
    split; [done|]. split; [lia|]. split; [lia|]. split; [done|]. split.
    { intros m [= <-]. by rewrite Nat.add_0_r. }
    split.
    { intros i Hi. replace i with 0%nat by lia. rewrite Nat.add_0_r. eauto. }
    { intros i Hi. lia. }
Qed.

(** X2.  Whatever the server and the context do, [fetchPosts] makes at most
    [RetryCount] attempts and at most [RetryCount - 1] backoffs (none at all
    when the retry count is not positive), a backoff only after an attempt,
    and it returns no posts whenever it returns an error. *)
Theorem fetchPosts_attempts_bounded (w : World W) :
  exists attempts waits,
    fetches (snd (fetchPosts env s w)) = (fetches w + attempts)%nat /\
    backoffs (snd (fetchPosts env s w)) = (backoffs w + waits)%nat /\
    (attempts <= Z.to_nat (config.RetryCount (cfg s)))%nat /\
    (waits <= Z.to_nat (config.RetryCount (cfg s)) - 1)%nat /\
    (waits <= attempts <= waits + 1)%nat /\
    (is_Some (snd (fst (fetchPosts env s w))) -> fst (fst (fetchPosts env s w)) = []).
Proof.
  destruct (fetchPosts_from_outcomes (Z.to_nat (config.RetryCount (cfg s))) 0 None w
              ltac:(lia))
    as [(k & posts & Hr & Hk & Hf & Hb & _)
       |[(j & Hr & Hj & Hf & Hb & _)|(last & Hr & Hf & Hb & _)]];
    fold (fetchPosts env s) in *; rewrite Hr, Hf, Hb; cbn [fst snd].
  - exists (k + 1)%nat, k. repeat split; try lia. by intros [? [=]].
  - exists (j + 1)%nat, (j + 1)%nat. repeat split; try lia.
  - exists (Z.to_nat (config.RetryCount (cfg s))),
      (Z.to_nat (config.RetryCount (cfg s)) - 1)%nat. repeat split; try lia.
Qed.

(** X3.  [fetchPosts] ends in exactly one of three ways.  It returns the
    posts of an attempt that succeeded, all earlier attempts having failed
    and their backoffs having run to the end.  Or it returns the context's
    error and no posts, a backoff having been cut short after a failed
    attempt that was not the last one allowed.  Or it returns no posts and
    "failed after N attempts", every allowed attempt having failed; the
    error wraps the error of the last attempt, or nothing when no attempt
    was allowed. *)
Theorem fetchPosts_outcomes (w : World W) :
  let n := Z.to_nat (config.RetryCount (cfg s)) in
  let r := fst (fetchPosts env s w) in
  let w' := snd (fetchPosts env s w) in
  (exists k posts,
     r = (posts, None) /\ (k < n)%nat /\
     fetches w' = (fetches w + k + 1)%nat /\ backoffs w' = (backoffs w + k)%nat /\
     attemptResult env (exchange env (fetches w + k)) = (posts, None) /\
     (forall i, (i < k)%nat -> is_Some (attemptError env (fetches w + i))) /\
     (forall i, (i < k)%nat -> backoffCancelled env (backoffs w + i) = false)) \/
  (exists j,
     r = ([], Some (ctx_Err env)) /\ (j + 1 < n)%nat /\
     fetches w' = (fetches w + j + 1)%nat /\ backoffs w' = (backoffs w + j + 1)%nat /\
     (forall i, (i <= j)%nat -> is_Some (attemptError env (fetches w + i))) /\
     (forall i, (i < j)%nat -> backoffCancelled env (backoffs w + i) = false) /\
     backoffCancelled env (backoffs w + j) = true) \/
  (exists last,
     r = ([], Some (fmt_Errorf
                      ("failed after " +:+ fmt_d (config.RetryCount (cfg s)) +:+ " attempts")
                      last)) /\
     fetches w' = (fetches w + n)%nat /\ backoffs w' = (backoffs w + (n - 1))%nat /\
     (n = 0%nat -> last = None) /\
     (forall m, n = S m -> last = attemptError env (fetches w + m)) /\
     (forall i, (i < n)%nat -> is_Some (attemptError env (fetches w + i))) /\
     (forall i, (i + 1 < n)%nat -> backoffCancelled env (backoffs w + i) = false)).
Proof.
  intros n r w'.
  exact (fetchPosts_from_outcomes n 0 None w ltac:(subst n; lia)).
Qed.

Lemma totalWait_snoc (waits : list Duration) (d : Duration) :
  totalWait (waits ++ [d]) = totalWait waits + d.
Proof.
  unfold totalWait. induction waits as [|x waits IH]; cbn [foldr app]; [lia|].
  rewrite IH. lia.
Qed.

Lemma totalWait_linear_backoff (m : nat) :
  Z.of_nat m <= 9223372036 ->
  2 * totalWait ((fun i => Duration_mul (0 + Z.of_nat i + 1) time_Second) <$> seq 0 m)
  = Z.of_nat m * (Z.of_nat m + 1) * time_Second.
Proof.
  induction m as [|m IH]; intros Hm; [done|].
  rewrite seq_S, fmap_app. cbn [Nat.add].
  change ((fun i => Duration_mul (0 + Z.of_nat i + 1) time_Second) <$> [m])
    with [Duration_mul (0 + Z.of_nat m + 1) time_Second].
  rewrite totalWait_snoc, Z.mul_add_distr_l, IH by lia.
  rewrite Duration_mul_seconds by lia. lia.
Qed.

(** X4.  When all N allowed attempts fail (1 <= N <= 9223372037) and no
    backoff is cut short, the waits [fetchPosts] asks for add up to
    N (N - 1) / 2 seconds. *)
Theorem fetchPosts_total_backoff (w : World W) :
  1 <= config.RetryCount (cfg s) <= 9223372037 ->
  (forall i, (i < Z.to_nat (config.RetryCount (cfg s)))%nat ->
     is_Some (attemptError env (fetches w + i))) ->
  (forall i, (i + 1 < Z.to_nat (config.RetryCount (cfg s)))%nat ->
     backoffCancelled env (backoffs w + i) = false) ->
  exists new,
    trace (snd (fetchPosts env s w)) = trace w ++ new /\
    2 * totalWait (waitsOf new) =
      config.RetryCount (cfg s) * (config.RetryCount (cfg s) - 1) * time_Second.
Proof.
  intros HN Hfail Hwait.
  destruct (Z.to_nat (config.RetryCount (cfg s))) as [|m] eqn:Hn; [lia|].
  destruct (Hfail m ltac:(lia)) as [cause Hcause].
  rewrite (fetchPosts_all_fail_run env s w m cause Hn); try done.
  - cbn [snd trace]. eexists. split; [reflexivity|].
    rewrite backoffRun_flat_map.
    rewrite (waitsOf_attempts_backoffs (fun i => (fetches w + i)%nat)
               (fun i => Duration_mul (0 + Z.of_nat i + 1) time_Second)).
    rewrite totalWait_linear_backoff by lia.
    replace (config.RetryCount (cfg s)) with (Z.of_nat m + 1) by lia. lia.
  - intros i Hi. apply Hfail. lia.
  - intros i Hi. apply Hwait. lia.
Qed.

End FetchOutcomes.

(** *** The outcomes of fetchPosts on the test fixtures *)
Section FetchOutcomesRuns.
Import models ingestion props more fixtures.

(** Three failed attempts wait 1 s + 2 s. *)
Lemma fetchPosts_total_backoff_witness :
  exists new,
    trace (snd (fetchPosts (brokenServer 99 99) (testService 3 None) freshWorld)) = [] ++ new /\
    2 * totalWait (waitsOf new) = 3 * (3 - 1) * time_Second.
Proof.
  apply (fetchPosts_total_backoff (brokenServer 99 99) (testService 3 None) freshWorld).
  - simpl. lia.
  - intros i _. vm_compute. eauto.
  - intros i Hi. apply bool_decide_eq_false. simpl in Hi. simpl. lia.
Defined.

End FetchOutcomesRuns.

(** ** The steps of a cycle *)
Section CycleSteps.
Import models ingestion props more.

Context {W : Type} (env : Env) (s : Service W).

(** X5.  A cycle is the three steps in order, each stopping the cycle when
    it fails.  A failed fetch is returned as "failed to fetch posts": the
    clock is not read and the storage is not called.  Otherwise the posts
    fetched, stamped with the one clock reading that follows the fetch, are
    passed to [StorePosts] in one call; its error is returned as "failed
    to store posts", and only a successful store prints the number of
    posts. *)
Theorem IngestData_steps (w : World W) :
  IngestData env s w =
  match fetchPosts env s w with
  | ((_, Some err), w1) => (Some (fmt_Errorf "failed to fetch posts" (Some err)), w1)
  | ((posts, None), w1) =>
    let batch := stamped (Time_UTC (now env (clockReads w1))) <$> posts in
    match storage.StorePosts (storage_ s) batch (store w1) with
    | (Some err, st) =>
      (Some (fmt_Errorf "failed to store posts" (Some err)),
       mkWorld (fetches w1) (backoffs w1) (ticks w1) (S (clockReads w1))
         (trace w1 ++ [EvNow (clockReads w1); EvStorage (CallStorePosts batch)]) st)
    | (None, st) =>
      (None,
       mkWorld (fetches w1) (backoffs w1) (ticks w1) (S (clockReads w1))
         (trace w1 ++ [EvNow (clockReads w1); EvStorage (CallStorePosts batch);
                       EvPrint ("Successfully ingested " +:+ fmt_d (Z.of_nat (length posts))
                                  +:+ " posts" +:+ newline)]) st)
    end
  end.
Proof.
  unfold IngestData. run_M.
  destruct (fetchPosts env s w) as [[posts [err|]] w1]; [done|].
  unfold transformPosts. run_M.
  pose proof (fill_by_index (stamped (Time_UTC (now env (clockReads w1))))
                TransformedPost_zero posts []) as Hfill.
  cbn [app length Nat.add] in Hfill. unfold stamped in Hfill at 1.
  change (imap (fun j x => (j, x)) posts) with (imap pair posts) in Hfill.
  rewrite Hfill. clear Hfill.
  destruct (storage.StorePosts (storage_ s) _ (store w1)) as [[err|] st]; run_M.
  - by rewrite <- app_assoc.
  - by rewrite <- !app_assoc, length_fmap.
Qed.

End CycleSteps.

(** ** From the environment to the running service *)
Section Startup.
Import models ingestion props more wiring.

Context (environ : gmap string string).
Context (strconv_Atoi : string -> Z * option error).
Context (time_ParseDuration : string -> Duration * option error).
Context {W : Type} (env : Env) (store : storage.Storage W).

Lemma getEnvInt_parsed key value n defaultValue :
  environ !! key = Some value -> value <> "" -> strconv_Atoi value = (n, None) ->
  config.getEnvInt environ strconv_Atoi key defaultValue = n.
Proof.
  intros Hkey Hne Hparse. unfold config.getEnvInt, config.os_Getenv. rewrite Hkey. simpl.
  destruct (decide (value <> "")); [|done]. by rewrite Hparse.
Qed.

Lemma getEnvDuration_parsed key value d defaultValue :
  environ !! key = Some value -> value <> "" -> time_ParseDuration value = (d, None) ->
  config.getEnvDuration environ time_ParseDuration key defaultValue = d.
Proof.
  intros Hkey Hne Hparse. unfold config.getEnvDuration, config.os_Getenv. rewrite Hkey. simpl.
  destruct (decide (value <> "")); [|done]. by rewrite Hparse.
Qed.

(** X6.  The loader does not validate RETRY_COUNT: an integer that is zero
    or negative is loaded as it is, and the service built from the loaded
    configuration then fails at startup, whatever the server would answer:
    [Start] returns "initial ingestion failed: failed to fetch posts: failed
    after N attempts" without a single request. *)
Theorem Load_nonpositive_retry_count_fails_startup
  (value : string) (n : Z) (cfg : config.Config) (rounds : nat) (w : World W) :
  environ !! "RETRY_COUNT" = Some value -> value <> "" ->
  strconv_Atoi value = (n, None) -> n <= 0 ->
  config.Load environ strconv_Atoi time_ParseDuration = (Some cfg, None) ->
  config.RetryCount (config.Ingestion cfg) = n /\
  Start env (NewService (config.Ingestion cfg) store) rounds w =
    (Returned
       (Some (fmt_Errorf "initial ingestion failed"
                (Some (fmt_Errorf "failed to fetch posts"
                         (Some (fmt_Errorf ("failed after " +:+ fmt_d n +:+ " attempts")
                                  None)))))), w).
Proof.
  intros Hkey Hne Hparse Hn [= <-].
  set (icfg := config.Ingestion _).
  assert (config.RetryCount icfg = n) as HN.
  { subst icfg. cbn [config.Ingestion config.RetryCount].
    by apply (getEnvInt_parsed _ value). }
  clearbody icfg. split; [done|].
  unfold Start, IngestData. run_M.
  rewrite fetchPosts_nonpositive by (cbn [cfg NewService]; lia).
  cbn [cfg NewService]. by rewrite HN.
Qed.

(** X7.  The loader does not validate INGESTION_INTERVAL either: a duration
    that is zero or negative is loaded as it is, and [Start] then panics in
    [time.NewTicker] as soon as the first cycle has succeeded. *)
Theorem Load_nonpositive_interval_panics
  (value : string) (d : Duration) (cfg : config.Config) (rounds : nat) (w : World W) :
  environ !! "INGESTION_INTERVAL" = Some value -> value <> "" ->
  time_ParseDuration value = (d, None) -> d <= 0 ->
  config.Load environ strconv_Atoi time_ParseDuration = (Some cfg, None) ->
  fst (IngestData env (NewService (config.Ingestion cfg) store) w) = None ->
  config.Interval (config.Ingestion cfg) = d /\
  fst (Start env (NewService (config.Ingestion cfg) store) rounds w) =
    Panicked "non-positive interval for NewTicker".
Proof.
  intros Hkey Hne Hparse Hd [= <-].
  set (icfg := config.Ingestion _).
  assert (config.Interval icfg = d) as HI.
  { subst icfg. cbn [config.Ingestion config.Interval].
    by apply (getEnvDuration_parsed _ value). }
  clearbody icfg. intros Hok. split; [done|].
  apply Start_nonpositive_interval; [done|].
  cbn [cfg NewService]. lia.
Qed.

(** X8.  A variable that is unset and a variable set to the empty string
    are the same to the loader: when none of the eleven variables it reads
    has a non-empty value, [Load] returns the documented defaults, whatever
    else the environment holds. *)
Theorem Load_defaults_when_unset :
  (forall key, key ∈ configKeys -> config.os_Getenv environ key = "") ->
  config.Load environ strconv_Atoi time_ParseDuration = (Some defaultConfig, None).
Proof.
  intros Hunset. apply Forall_forall in Hunset. unfold configKeys in Hunset.
  repeat (apply Forall_cons in Hunset as [? Hunset]).
  unfold config.Load, config.getEnv, config.getEnvInt, config.getEnvDuration, defaultConfig.
  repeat match goal with
         | H : config.os_Getenv _ _ = _ |- _ => rewrite H; clear H
         end.
  done.
Qed.

(** X9.  [Load] reads no variable but its eleven: setting any other
    variable does not change the configuration. *)
Theorem Load_ignores_other_variables (key value : string) :
  key ∉ configKeys ->
  config.Load (<[ key := value ]> environ) strconv_Atoi time_ParseDuration =
  config.Load environ strconv_Atoi time_ParseDuration.
Proof.
  intros Hkey.
  assert (Forall (fun k => config.os_Getenv (<[ key := value ]> environ) k
                           = config.os_Getenv environ k) configKeys) as Hget.
  { apply Forall_forall. intros k Hk. unfold config.os_Getenv.
    rewrite lookup_insert_ne; [done|]. by intros ->. }
  unfold configKeys in Hget.
  repeat (apply Forall_cons in Hget as [? Hget]).
  unfold config.Load, config.getEnv, config.getEnvInt, config.getEnvDuration.
  repeat match goal with
         | H : config.os_Getenv _ _ = _ |- _ => rewrite H; clear H
         end.
  done.
Qed.

End Startup.

(** *** Startup on concrete environments *)
Section StartupRuns.
Import models ingestion props more wiring fixtures.

(** RETRY_COUNT=0 against a server that works. *)
Lemma Load_nonpositive_retry_count_fails_startup_witness :
  exists cfg,
    config.Load {[ "RETRY_COUNT" := "0" ]} Atoi ParseDuration = (Some cfg, None) /\
    config.RetryCount (config.Ingestion cfg) = 0 /\
    Start (flakyServer 0) (NewService (config.Ingestion cfg) (MockStorage None)) 5 freshWorld =
      (Returned
         (Some (fmt_Errorf "initial ingestion failed"
                  (Some (fmt_Errorf "failed to fetch posts"
                           (Some (fmt_Errorf "failed after 0 attempts" None)))))), freshWorld).
Proof.
  eexists. split; [reflexivity|].
  apply (Load_nonpositive_retry_count_fails_startup {[ "RETRY_COUNT" := "0" ]}
           Atoi ParseDuration (flakyServer 0) (MockStorage None) "0" 0).
  - reflexivity.
  - discriminate.
  - reflexivity.
  - lia.
  - reflexivity.
Defined.

(** INGESTION_INTERVAL=0s against a server that works. *)
Lemma Load_nonpositive_interval_panics_witness :
  exists cfg,
    config.Load {[ "INGESTION_INTERVAL" := "0s" ]} Atoi ParseDuration = (Some cfg, None) /\
    config.Interval (config.Ingestion cfg) = 0 /\
    fst (Start (flakyServer 0) (NewService (config.Ingestion cfg) (MockStorage None)) 5
           freshWorld) = Panicked "non-positive interval for NewTicker".
Proof.
  eexists. split; [reflexivity|].
  apply (Load_nonpositive_interval_panics {[ "INGESTION_INTERVAL" := "0s" ]}
           Atoi ParseDuration (flakyServer 0) (MockStorage None) "0s" 0).
  - reflexivity.
  - discriminate.
  - reflexivity.
  - lia.
  - reflexivity.
  - reflexivity.
Defined.

(** INGESTION_INTERVAL=-5m and API_TIMEOUT=1h30m are durations to the
    parser: both are loaded as they are, and the negative interval makes
    [Start] panic. *)
Example Load_signed_and_compound_durations :
  exists cfg,
    config.Load {[ "INGESTION_INTERVAL" := "-5m"; "API_TIMEOUT" := "1h30m" ]} Atoi ParseDuration
      = (Some cfg, None) /\
    config.Interval (config.Ingestion cfg) = - (5 * time_Minute) /\
    config.Timeout (config.Ingestion cfg) = 90 * time_Minute /\
    fst (Start (flakyServer 0) (NewService (config.Ingestion cfg) (MockStorage None)) 5
           freshWorld) = Panicked "non-positive interval for NewTicker".
Proof. eexists. split; [reflexivity|]. vm_compute. repeat split. Qed.

(** An environment that sets other variables, and AWS_REGION to nothing. *)
Lemma Load_defaults_when_unset_witness :
  config.Load {[ "HOME" := "/root"; "AWS_REGION" := "" ]} Atoi ParseDuration =
  (Some defaultConfig, None).
Proof.
  apply (Load_defaults_when_unset {[ "HOME" := "/root"; "AWS_REGION" := "" ]}
           Atoi ParseDuration).
  intros key Hkey. unfold configKeys in Hkey. rewrite !elem_of_cons, elem_of_nil in Hkey.
  repeat (destruct Hkey as [->|Hkey]; [reflexivity|]). done.
Defined.

Lemma Load_ignores_other_variables_witness :
  config.Load (<[ "HOME" := "/root" ]> {[ "RETRY_COUNT" := "5" ]}) Atoi ParseDuration =
  config.Load {[ "RETRY_COUNT" := "5" ]} Atoi ParseDuration.
Proof.
  apply (Load_ignores_other_variables {[ "RETRY_COUNT" := "5" ]} Atoi ParseDuration
           "HOME" "/root").
  unfold configKeys. rewrite !not_elem_of_cons. repeat split; try discriminate.
  apply not_elem_of_nil.
Defined.

End StartupRuns.

(** ** The DynamoDB backend, over any client *)
Section BackendLaws.
Import models storage more.

Context {W : Type} (client : DynamoDBAPI W) (codec : Codec).

(** Storing a batch is storing its parts in order, as long as they succeed. *)
Lemma DynamoDB_StorePosts_app (d : DynamoDBStorage) (l1 l2 : list TransformedPost) (w : W) :
  DynamoDB_StorePosts client codec d (l1 ++ l2) w =
  match DynamoDB_StorePosts client codec d l1 w with
  | (None, w1) => DynamoDB_StorePosts client codec d l2 w1
  | (Some err, w1) => (Some err, w1)
  end.
Proof.
  revert w. induction l1 as [|post l1 IH]; intros w; [done|].
  cbn [app DynamoDB_StorePosts].
  destruct (MarshalMap_post codec post) as [item [err|]]; [done|].
  destruct (PutItemWithContext client (tableName d) item w) as [[err|] w1]; [done|].
  apply IH.
Qed.

(** X10.  [StorePosts] writes the posts one by one and stops at the first
    write the client refuses: the error names that post, the posts before
    it stay written (nothing is rolled back) and the posts after it are
    never tried. *)
Theorem DynamoDB_StorePosts_stops_at_first_failure
  (d : DynamoDBStorage) (before after : list TransformedPost) (post : TransformedPost)
  (w w2 : W) (item : gmap string AttributeValue) (err : error) :
  fst (DynamoDB_StorePosts client codec d before w) = None ->
  MarshalMap_post codec post = (item, None) ->
  PutItemWithContext client (tableName d) item
    (snd (DynamoDB_StorePosts client codec d before w)) = (Some err, w2) ->
  DynamoDB_StorePosts client codec d (before ++ post :: after) w =
  (Some (fmt_Errorf ("failed to store post " +:+ fmt_d (ID (Post_ post))) (Some err)), w2).
Proof.
  intros Hbefore Hitem Hput. rewrite DynamoDB_StorePosts_app.
  destruct (DynamoDB_StorePosts client codec d before w) as [[e|] w1]; [done|].
  cbn [snd] in Hput. cbn [DynamoDB_StorePosts]. by rewrite Hitem, Hput.
Qed.

Lemma DynamoDB_GetPosts_reads (d : DynamoDBStorage) (limit offset : Z) (w w' : W) :
  fst (ScanWithContext client (tableName d) limit w) =
  fst (ScanWithContext client (tableName d) limit w') ->
  fst (DynamoDB_GetPosts client codec d limit offset w) =
  fst (DynamoDB_GetPosts client codec d limit offset w').
Proof.
  unfold DynamoDB_GetPosts.
  destruct (ScanWithContext client _ _ w) as [[items err] w1].
  destruct (ScanWithContext client _ _ w') as [[items' err'] w1'].
  cbn [fst]. intros [= -> ->]. destruct err' as [err'|]; [done|].
  by destruct (UnmarshalListOfMaps codec items') as [posts [e|]].
Qed.

Lemma DynamoDB_GetPostByID_reads (d : DynamoDBStorage) (id : Z) (w w' : W) :
  fst (GetItemWithContext client (tableName d) {[ "id" := AttrN (fmt_d id) ]} w) =
  fst (GetItemWithContext client (tableName d) {[ "id" := AttrN (fmt_d id) ]} w') ->
  fst (DynamoDB_GetPostByID client codec d id w) =
  fst (DynamoDB_GetPostByID client codec d id w').
Proof.
  unfold DynamoDB_GetPostByID.
  destruct (GetItemWithContext client _ _ w) as [[item err] w1].
  destruct (GetItemWithContext client _ _ w') as [[item' err'] w1'].
  cbn [fst]. intros [= -> ->].
  destruct item' as [item'|], err' as [err'|]; try done.
  by destruct (UnmarshalMap_post codec item') as [post [e|]].
Qed.

(** X11.  The posts and the status live in different tables.  On a client
    whose writes to one table leave the reads of every other table alone,
    storing posts does not change what [GetIngestionStatus] returns, and
    updating the status changes neither what [GetPosts] nor what
    [GetPostByID] returns. *)
Theorem DynamoDB_posts_and_status_do_not_interfere
  (d : DynamoDBStorage) (posts : list TransformedPost) (status : IngestionStatus)
  (limit offset id : Z) (w : W) :
  (forall t t' key item w0,
     t <> t' ->
     fst (GetItemWithContext client t' key (snd (PutItemWithContext client t item w0))) =
     fst (GetItemWithContext client t' key w0)) ->
  (forall t t' n item w0,
     t <> t' ->
     fst (ScanWithContext client t' n (snd (PutItemWithContext client t item w0))) =
     fst (ScanWithContext client t' n w0)) ->
  fst (DynamoDB_GetIngestionStatus client codec d
         (snd (DynamoDB_StorePosts client codec d posts w))) =
    fst (DynamoDB_GetIngestionStatus client codec d w) /\
  fst (DynamoDB_GetPosts client codec d limit offset
         (snd (DynamoDB_UpdateIngestionStatus client codec d status w))) =
    fst (DynamoDB_GetPosts client codec d limit offset w) /\
  fst (DynamoDB_GetPostByID client codec d id
         (snd (DynamoDB_UpdateIngestionStatus client codec d status w))) =
    fst (DynamoDB_GetPostByID client codec d id w).
Proof.
  intros Hget Hscan. split; [by apply DynamoDB_StorePosts_preserves_status|].
  pose proof (status_table_is_another_table d) as Hne.
  unfold DynamoDB_UpdateIngestionStatus.
  destruct (MarshalMap_status codec status) as [item [err|]]; [done|].
  split.
  - apply DynamoDB_GetPosts_reads. apply Hscan. congruence.
  - apply DynamoDB_GetPostByID_reads. apply Hget. congruence.
Qed.

End BackendLaws.

(** ** The DynamoDB backend on the in-memory database *)
Section BackendOnMemdb.
Import models storage more.

Context (codec : Codec).

Lemma list_find_cons_snd {A : Type} (P : A -> Prop) `{!forall x, Decision (P x)} x (l : list A) :
  snd <$> list_find P (x :: l) = if decide (P x) then Some x else snd <$> list_find P l.
Proof. cbn. case_decide; [done|]. by destruct (list_find P l) as [[i y]|]. Qed.

(** A put is found under its own key, first. *)
Lemma putRow_find_same (item key : gmap string AttributeValue) rows :
  item !! "id" = key !! "id" ->
  snd <$> list_find (fun row => row !! "id" = key !! "id") (memdb.putRow item rows)
  = Some item.
Proof.
  intros Hkey. induction rows as [|row rows IH]; cbn [memdb.putRow].
  - rewrite list_find_cons_snd. by case_decide.
  - destruct (decide (row !! "id" = item !! "id")) as [Heq|Hne];
      rewrite list_find_cons_snd; case_decide; try done. congruence.
Qed.

(** A put leaves what is found under every other key alone. *)
Lemma putRow_find_other (item key : gmap string AttributeValue) rows :
  item !! "id" <> key !! "id" ->
  snd <$> list_find (fun row => row !! "id" = key !! "id") (memdb.putRow item rows)
  = snd <$> list_find (fun row => row !! "id" = key !! "id") rows.
Proof.
  intros Hkey. induction rows as [|row rows IH]; cbn [memdb.putRow].
  - rewrite list_find_cons_snd. by case_decide.
  - destruct (decide (row !! "id" = item !! "id")) as [Heq|Hne];
      rewrite !list_find_cons_snd; repeat case_decide; try done; congruence.
Qed.

(** Storing posts whose marshalling succeeds puts their items, in order. *)
Lemma memdb_StorePosts (d : DynamoDBStorage) (posts : list TransformedPost) :
  forall (db : gmap string (list (gmap string AttributeValue))) rows,
  db !! tableName d = Some rows ->
  Forall (fun post => snd (MarshalMap_post codec post) = None) posts ->
  DynamoDB_StorePosts memdb.client codec d posts db =
  (None,
   <[ tableName d :=
        foldl (fun rows post => memdb.putRow (fst (MarshalMap_post codec post)) rows)
          rows posts ]> db).
Proof.
  induction posts as [|post posts IH]; intros db rows Hrows Hok.
  - cbn [DynamoDB_StorePosts foldl]. by rewrite insert_id.
  - apply Forall_cons in Hok as [Hpost Hok]. cbn [DynamoDB_StorePosts foldl].
    destruct (MarshalMap_post codec post) as [item e]. cbn [fst snd] in *. subst e.
    cbn [PutItemWithContext memdb.client]. rewrite Hrows.
    rewrite (IH _ (memdb.putRow item rows)); [|by rewrite lookup_insert_eq|done].
    by rewrite insert_insert_eq.
Qed.

Lemma memdb_GetItem (name : string) (key : gmap string AttributeValue)
  (db : gmap string (list (gmap string AttributeValue))) rows :
  db !! name = Some rows ->
  GetItemWithContext memdb.client name key db =
  ((snd <$> list_find (fun row => row !! "id" = key !! "id") rows, None), db).
Proof. intros Hrows. cbn [GetItemWithContext memdb.client]. by rewrite Hrows. Qed.

Lemma foldl_putRow_find_other (key : gmap string AttributeValue)
  (posts : list TransformedPost) : forall rows,
  Forall (fun post => fst (MarshalMap_post codec post) !! "id" <> key !! "id") posts ->
  snd <$> list_find (fun row => row !! "id" = key !! "id")
            (foldl (fun rows post => memdb.putRow (fst (MarshalMap_post codec post)) rows)
               rows posts)
  = snd <$> list_find (fun row => row !! "id" = key !! "id") rows.
Proof.
  induction posts as [|post posts IH]; intros rows Hother; [done|].
  apply Forall_cons in Hother as [Hpost Hother]. cbn [foldl].
  rewrite IH by done. by apply putRow_find_other.
Qed.

Lemma fmt_d_inj (a b : Z) : fmt_d a = fmt_d b -> a = b.
Proof.
  intros Heq. rewrite <- (DecimalZ.of_to a), <- (DecimalZ.of_to b). f_equal.
  assert (forall z, Z.to_int z <> Decimal.Pos Decimal.Nil /\
                    Z.to_int z <> Decimal.Neg Decimal.Nil) as Hnonnil.
  { intros [|q|q]; cbn; split; try discriminate; intros [= Hq];
      by apply Unsigned.to_uint_nonnil in Hq. }
  apply (f_equal NilZero.int_of_string) in Heq. unfold fmt_d in Heq.
  rewrite !NilZero.isi in Heq by apply Hnonnil. by injection Heq.
Qed.

(** X12.  Store and look up.  On the in-memory database, with the posts
    table in place, a batch of posts with distinct IDs, each marshalled with
    its ID as the number under ["id"] and unmarshalled back to itself, is
    stored without error, and afterwards [GetPostByID] returns each post of
    the batch for its ID, whatever the table held before. *)
Theorem DynamoDB_store_then_get_by_id
  (d : DynamoDBStorage) (posts : list TransformedPost)
  (db : gmap string (list (gmap string AttributeValue))) (post : TransformedPost) :
  is_Some (db !! tableName d) ->
  Forall (fun p =>
            snd (MarshalMap_post codec p) = None /\
            fst (MarshalMap_post codec p) !! "id" = Some (AttrN (fmt_d (ID (Post_ p)))) /\
            UnmarshalMap_post codec (fst (MarshalMap_post codec p)) = (p, None)) posts ->
  NoDup ((fun p => ID (Post_ p)) <$> posts) ->
  post ∈ posts ->
  fst (DynamoDB_StorePosts memdb.client codec d posts db) = None /\
  fst (DynamoDB_GetPostByID memdb.client codec d (ID (Post_ post))
         (snd (DynamoDB_StorePosts memdb.client codec d posts db)))
  = (Some post, None).
Proof.
  intros [rows Hrows] Hcodec Hnodup Hin.
  rewrite (memdb_StorePosts d posts db rows Hrows).
  2:{ eapply Forall_impl; [exact Hcodec|]. by intros p (? & _). }
  cbn [fst snd]. split; [done|].
  unfold DynamoDB_GetPostByID.
  rewrite (memdb_GetItem _ _ _ _ (lookup_insert_eq _ _ _)).
  set (key := {[ "id" := AttrN (fmt_d (ID (Post_ post))) ]} : gmap string AttributeValue).
  assert (key !! "id" = Some (AttrN (fmt_d (ID (Post_ post))))) as Hkey
    by apply lookup_singleton_eq.
  enough (snd <$> list_find (fun row => row !! "id" = key !! "id")
                    (foldl (fun rows p => memdb.putRow (fst (MarshalMap_post codec p)) rows)
                       rows posts)
          = Some (fst (MarshalMap_post codec post))) as ->.
  { apply (proj1 (Forall_forall _ _)) with (x := post) in Hcodec; [|done].
    destruct Hcodec as (_ & _ & ->). done. }
  clear Hrows. revert rows. induction posts as [|p posts IH]; intros rows.
  { by apply elem_of_nil in Hin. }
  apply Forall_cons in Hcodec as [(Hm & Hid & Hround) Hcodec].
  rewrite fmap_cons in Hnodup. apply NoDup_cons in Hnodup as [Hfresh Hnodup].
  cbn [foldl]. apply elem_of_cons in Hin as [->|Hin].
  - rewrite foldl_putRow_find_other.
    + apply putRow_find_same. by rewrite Hid, Hkey.
    + apply Forall_forall. intros q Hq.
      apply (proj1 (Forall_forall _ _)) with (x := q) in Hcodec; [|done].
      destruct Hcodec as (_ & Hqid & _). rewrite Hqid, Hkey. intros [= Heq%fmt_d_inj].
      apply Hfresh. rewrite <- Heq. apply list_elem_of_fmap. by exists q.
  - by apply IH.
Qed.

(** X13.  The status is a single record.  On the in-memory database, when
    the status table holds no record or one status record, an update whose
    marshalling succeeds is written without error, leaves exactly one record
    in the table, the status under the fixed key, and [GetIngestionStatus]
    then decodes that record: the last update is what is read. *)
Theorem DynamoDB_status_is_a_single_record
  (d : DynamoDBStorage) (status : IngestionStatus) (item : gmap string AttributeValue)
  (db : gmap string (list (gmap string AttributeValue))) :
  (db !! (tableName d +:+ "_status") = Some [] \/
   exists old, db !! (tableName d +:+ "_status") = Some [statusItem old]) ->
  MarshalMap_status codec status = (item, None) ->
  let db1 := snd (DynamoDB_UpdateIngestionStatus memdb.client codec d status db) in
  fst (DynamoDB_UpdateIngestionStatus memdb.client codec d status db) = None /\
  db1 !! (tableName d +:+ "_status") = Some [statusItem item] /\
  fst (DynamoDB_GetIngestionStatus memdb.client codec d db1) =
    match UnmarshalMap_status codec (statusItem item) with
    | (_, Some err) =>
      (None, Some (fmt_Errorf "failed to unmarshal ingestion status" (Some err)))
    | (decoded, None) => (Some decoded, None)
    end.
Proof.
  intros Hrows Hitem db1. subst db1. unfold DynamoDB_UpdateIngestionStatus.
  rewrite Hitem. cbn [PutItemWithContext memdb.client]. fold (statusItem item).
  assert (exists rows, db !! (tableName d +:+ "_status") = Some rows /\
                       memdb.putRow (statusItem item) rows = [statusItem item])
    as (rows & -> & Hput).
  { destruct Hrows as [->|[old ->]]; eexists; (split; [reflexivity|]); [done|].
    cbn [memdb.putRow]. unfold statusItem. rewrite !lookup_insert_eq. by case_decide. }
  cbn [fst snd]. rewrite Hput, lookup_insert_eq. split; [done|]. split; [done|].
  unfold DynamoDB_GetIngestionStatus.
  rewrite (memdb_GetItem _ _ _ _ (lookup_insert_eq _ _ _)).
  rewrite list_find_cons_snd.
  unfold statusItem, statusKey. rewrite lookup_insert_eq, lookup_singleton_eq.
  case_decide; [|done]. fold (statusItem item).
  by destruct (UnmarshalMap_status codec (statusItem item)) as [decoded [err|]].
Qed.

(** What the constructor does to the in-memory database. *)
Lemma memdb_NewDynamoDBStorage (cfg : config.StorageConfig)
  (db : gmap string (list (gmap string AttributeValue))) :
  NewDynamoDBStorage memdb.client cfg db =
  ((Some {| tableName := config.TableName cfg |}, None),
   match db !! config.TableName cfg with
   | Some _ => db
   | None => <[ config.TableName cfg := [] ]> db
   end).
Proof.
  unfold NewDynamoDBStorage, ensureTable.
  cbn [session_NewSession DescribeTable CreateTable WaitUntilTableExists memdb.client
       tableName cti_TableName].
  unfold memdb.exists_.
  destruct (db !! config.TableName cfg) as [rows|] eqn:Hrows; [done|].
  by rewrite lookup_insert_eq.
Qed.

(** X14.  On the in-memory database the constructor always succeeds, with a
    backend on the configured table; it makes that table, empty, when it is
    missing and changes nothing else: every table that exists keeps its
    items, no other table appears, and constructing twice is constructing
    once. *)
Theorem NewDynamoDBStorage_ensures_only_the_posts_table (cfg : config.StorageConfig)
  (db : gmap string (list (gmap string AttributeValue))) :
  let db1 := snd (NewDynamoDBStorage memdb.client cfg db) in
  fst (NewDynamoDBStorage memdb.client cfg db) =
    (Some {| tableName := config.TableName cfg |}, None) /\
  is_Some (db1 !! config.TableName cfg) /\
  (db !! config.TableName cfg = None -> db1 !! config.TableName cfg = Some []) /\
  (forall t rows, db !! t = Some rows -> db1 !! t = Some rows) /\
  (forall t, t <> config.TableName cfg -> db1 !! t = db !! t) /\
  snd (NewDynamoDBStorage memdb.client cfg db1) = db1.
Proof.
  intros db1. subst db1. rewrite !memdb_NewDynamoDBStorage. cbn [fst snd].
  destruct (db !! config.TableName cfg) as [rows|] eqn:Hrows.
  - rewrite Hrows. repeat split; eauto. done.
  - rewrite lookup_insert_eq. repeat split; eauto.
    + intros t rows Ht. rewrite lookup_insert_ne; [done|]. congruence.
    + intros t Ht. by rewrite lookup_insert_ne.
Qed.

(** X15.  The constructor never makes the status table.  On the in-memory
    database, where a call on a table that does not exist fails, a database
    without the status table still has none after construction, and the
    backend can then neither read the status (no "never_run" default is
    returned, but an error) nor write it. *)
Theorem DynamoDB_status_table_is_never_created (cfg : config.StorageConfig)
  (db : gmap string (list (gmap string AttributeValue)))
  (status : IngestionStatus) (item : gmap string AttributeValue) :
  db !! (config.TableName cfg +:+ "_status") = None ->
  MarshalMap_status codec status = (item, None) ->
  let d := {| tableName := config.TableName cfg |} in
  let db1 := snd (NewDynamoDBStorage memdb.client cfg db) in
  fst (NewDynamoDBStorage memdb.client cfg db) = (Some d, None) /\
  db1 !! (config.TableName cfg +:+ "_status") = None /\
  DynamoDB_GetIngestionStatus memdb.client codec d db1 =
    ((None, Some (fmt_Errorf "failed to get ingestion status" (Some memdb.ResourceNotFound))),
     db1) /\
  DynamoDB_UpdateIngestionStatus memdb.client codec d status db1 =
    (Some memdb.ResourceNotFound, db1).
Proof.
  intros Hnone Hitem d db1.
  assert (db1 !! (config.TableName cfg +:+ "_status") = None) as Hnone1.
  { subst db1. rewrite memdb_NewDynamoDBStorage. cbn [snd].
    destruct (db !! config.TableName cfg); [done|].
    rewrite lookup_insert_ne; [done|]. apply (status_table_is_another_table d). }
  split; [by rewrite memdb_NewDynamoDBStorage|]. split; [done|]. split.
  - unfold DynamoDB_GetIngestionStatus. cbn [GetItemWithContext memdb.client tableName d].
    by rewrite Hnone1.
  - unfold DynamoDB_UpdateIngestionStatus. rewrite Hitem.
    cbn [PutItemWithContext memdb.client tableName d]. by rewrite Hnone1.
Qed.

End BackendOnMemdb.

(** *** The backend laws on concrete databases *)
Section BackendRuns.
Import models storage more fixtures.

Lemma memdb_scan_frame (t t' : string) (n : Z) item
  (db : gmap string (list (gmap string AttributeValue))) :
  t <> t' ->
  fst (ScanWithContext memdb.client t' n (snd (PutItemWithContext memdb.client t item db)))
  = fst (ScanWithContext memdb.client t' n db).
Proof.
  intros Hne. cbn [ScanWithContext PutItemWithContext memdb.client].
  destruct (db !! t) as [rows|]; [|done]. cbn [snd].
  rewrite lookup_insert_ne by done. destruct (db !! t'); [|done]. by case_decide.
Qed.

(** Three posts against a client that refuses the second: the first stays
    written, the third is never tried. *)
Lemma DynamoDB_StorePosts_stops_at_first_failure_witness :
  DynamoDB_StorePosts (refusingClient "2") memdb.codec testTable
    [storedPost 1 "Test Post 1"; storedPost 2 "Test Post 2"; storedPost 3 "Test Post 3"]
    emptyTables
  = (Some (fmt_Errorf "failed to store post 2"
             (Some (errors_New "ProvisionedThroughputExceededException"))),
     snd (DynamoDB_StorePosts memdb.client memdb.codec testTable
            [storedPost 1 "Test Post 1"] emptyTables)).
Proof.
  apply (DynamoDB_StorePosts_stops_at_first_failure (refusingClient "2") memdb.codec testTable
           [storedPost 1 "Test Post 1"] [storedPost 3 "Test Post 3"]
           (storedPost 2 "Test Post 2") emptyTables _
           (memdb.marshalPost (storedPost 2 "Test Post 2"))).
  - reflexivity.
  - reflexivity.
  - reflexivity.
Defined.

Lemma DynamoDB_posts_and_status_do_not_interfere_witness :
  let status :=
    {| LastSuccessfulRun := Time_zero; LastAttempt := Time_zero; Status := "success";
       ErrorMessage := ""; RecordsIngested := 2 |} in
  fst (DynamoDB_GetIngestionStatus memdb.client memdb.codec testTable
         (snd (DynamoDB_StorePosts memdb.client memdb.codec testTable
                 [storedPost 3 "Test Post 3"] twoPosts))) =
    fst (DynamoDB_GetIngestionStatus memdb.client memdb.codec testTable twoPosts) /\
  fst (DynamoDB_GetPosts memdb.client memdb.codec testTable 10 0
         (snd (DynamoDB_UpdateIngestionStatus memdb.client memdb.codec testTable status
                 twoPosts))) =
    fst (DynamoDB_GetPosts memdb.client memdb.codec testTable 10 0 twoPosts) /\
  fst (DynamoDB_GetPostByID memdb.client memdb.codec testTable 1
         (snd (DynamoDB_UpdateIngestionStatus memdb.client memdb.codec testTable status
                 twoPosts))) =
    fst (DynamoDB_GetPostByID memdb.client memdb.codec testTable 1 twoPosts).
Proof.
  intros status.
  apply (DynamoDB_posts_and_status_do_not_interfere memdb.client memdb.codec testTable
           [storedPost 3 "Test Post 3"] status 10 0 1 twoPosts).
  - intros t t' key item db Hne. by apply memdb_put_frame.
  - intros t t' n item db Hne. by apply memdb_scan_frame.
Defined.

(** Two posts stored over an empty table; the second is found by its ID. *)
Lemma DynamoDB_store_then_get_by_id_witness :
  fst (DynamoDB_StorePosts memdb.client memdb.codec testTable
         [storedPost 1 "Test Post 1"; storedPost 2 "Test Post 2"] emptyTables) = None /\
  fst (DynamoDB_GetPostByID memdb.client memdb.codec testTable 2 twoPosts)
  = (Some (storedPost 2 "Test Post 2"), None).
Proof.
  apply (DynamoDB_store_then_get_by_id memdb.codec testTable
           [storedPost 1 "Test Post 1"; storedPost 2 "Test Post 2"] emptyTables
           (storedPost 2 "Test Post 2")).
  - by eexists.
  - repeat constructor.
  - apply (bool_decide_unpack _). reflexivity.
  - rewrite !elem_of_cons. right. by left.
Defined.

(** A second update over a first one. *)
Lemma DynamoDB_status_is_a_single_record_witness :
  let first :=
    {| LastSuccessfulRun := Time_zero; LastAttempt := Time_zero; Status := "running";
       ErrorMessage := ""; RecordsIngested := 0 |} in
  let second :=
    {| LastSuccessfulRun := {| unixNano := 1700000000000000000; location := UTC |};
       LastAttempt := {| unixNano := 1700000000000000000; location := UTC |};
       Status := "success"; ErrorMessage := ""; RecordsIngested := 100 |} in
  let db := snd (DynamoDB_UpdateIngestionStatus memdb.client memdb.codec testTable first
                   emptyTables) in
  fst (DynamoDB_UpdateIngestionStatus memdb.client memdb.codec testTable second db) = None /\
  snd (DynamoDB_UpdateIngestionStatus memdb.client memdb.codec testTable second db)
    !! "ingested_data_status" = Some [statusItem (memdb.marshalStatus second)] /\
  fst (DynamoDB_GetIngestionStatus memdb.client memdb.codec testTable
         (snd (DynamoDB_UpdateIngestionStatus memdb.client memdb.codec testTable second db)))
  = (Some second, None).
Proof.
  intros first second db.
  apply (DynamoDB_status_is_a_single_record memdb.codec testTable second
           (memdb.marshalStatus second) db).
  - right. exists (memdb.marshalStatus first). reflexivity.
  - reflexivity.
Defined.

(** A database with no table at all, and the default configuration. *)
Lemma DynamoDB_status_table_is_never_created_witness :
  let cfg := config.Storage defaultConfig in
  let status :=
    {| LastSuccessfulRun := Time_zero; LastAttempt := Time_zero; Status := "running";
       ErrorMessage := ""; RecordsIngested := 0 |} in
  fst (NewDynamoDBStorage memdb.client cfg ∅) = (Some testTable, None) /\
  snd (NewDynamoDBStorage memdb.client cfg ∅) !! "ingested_data_status" = None /\
  DynamoDB_GetIngestionStatus memdb.client memdb.codec testTable
    (snd (NewDynamoDBStorage memdb.client cfg ∅)) =
    ((None, Some (fmt_Errorf "failed to get ingestion status" (Some memdb.ResourceNotFound))),
     snd (NewDynamoDBStorage memdb.client cfg ∅)) /\
  DynamoDB_UpdateIngestionStatus memdb.client memdb.codec testTable status
    (snd (NewDynamoDBStorage memdb.client cfg ∅)) =
    (Some memdb.ResourceNotFound, snd (NewDynamoDBStorage memdb.client cfg ∅)).
Proof.
  intros cfg status.
  apply (DynamoDB_status_table_is_never_created memdb.codec cfg ∅ status
           (memdb.marshalStatus status)).
  - reflexivity.
  - reflexivity.
Defined.

End BackendRuns.

(** ** The HTTP handlers *)
Section Handlers.
Import models storage server handlers more.

Context {W : Type} (storage_ : Storage W).
Context (strconv_Atoi : string -> Z * option error).

(** X16.  [handlePosts] answers anything but GET with 405 and leaves the
    storage alone.  For a GET it calls [GetPosts] once, with a limit that is
    positive and an offset that is not negative whatever the query holds:
    the limit is 10 unless the query gives a positive integer, the offset 0
    unless it gives a non-negative one.  A storage error becomes a 500;
    otherwise the reply holds the posts, their number, and the limit and
    offset used. *)
Theorem handlePosts_sanitises_query (method limitStr offsetStr : string) (w : W) :
  (method <> "GET" ->
   handlePosts storage_ strconv_Atoi method limitStr offsetStr w =
   (server.http_Error "Method not allowed" 405, w)) /\
  (method = "GET" ->
   exists limit offset,
     0 < limit /\ 0 <= offset /\
     (limit = 10 \/ (limitStr <> "" /\ strconv_Atoi limitStr = (limit, None))) /\
     (offset = 0 \/ (offsetStr <> "" /\ strconv_Atoi offsetStr = (offset, None))) /\
     (forall l, limitStr <> "" -> strconv_Atoi limitStr = (l, None) -> 0 < l -> limit = l) /\
     (forall o, offsetStr <> "" -> strconv_Atoi offsetStr = (o, None) -> 0 <= o -> offset = o) /\
     (limitStr = "" \/ is_Some (snd (strconv_Atoi limitStr)) \/ fst (strconv_Atoi limitStr) <= 0 ->
      limit = 10) /\
     (offsetStr = "" \/ is_Some (snd (strconv_Atoi offsetStr)) \/ fst (strconv_Atoi offsetStr) < 0 ->
      offset = 0) /\
     handlePosts storage_ strconv_Atoi method limitStr offsetStr w =
     match GetPosts storage_ limit offset w with
     | ((_, Some err), w1) =>
       (server.http_Error ("Failed to retrieve posts: " +:+ Error err) 500, w1)
     | ((posts, None), w1) => (PostsJSON posts (Z.of_nat (length posts)) limit offset, w1)
     end).
Proof.
  unfold handlePosts. split; intros Hm; destruct (decide (method <> "GET")); try done.
  eexists _, _. repeat apply conj; [..|reflexivity].
  - destruct (decide (limitStr <> "")); [|lia].
    destruct (strconv_Atoi limitStr) as [l [e|]]; [lia|]. case_decide; lia.
  - destruct (decide (offsetStr <> "")); [|lia].
    destruct (strconv_Atoi offsetStr) as [o [e|]]; [lia|]. case_decide; lia.
  - destruct (decide (limitStr <> "")); [|by left].
    destruct (strconv_Atoi limitStr) as [l [e|]]; [by left|]. case_decide; eauto.
  - destruct (decide (offsetStr <> "")); [|by left].
    destruct (strconv_Atoi offsetStr) as [o [e|]]; [by left|]. case_decide; eauto.
  - intros l Hset Hparsed Hpos. destruct (decide (limitStr <> "")); [|done].
    rewrite Hparsed. by case_decide.
  - intros o Hset Hparsed Hpos. destruct (decide (offsetStr <> "")); [|done].
    rewrite Hparsed. by case_decide.
  - intros Hbad. destruct (decide (limitStr <> "")) as [Hset|]; [|done].
    destruct (strconv_Atoi limitStr) as [l [e|]]; [done|]. cbn [fst snd] in Hbad.
    case_decide; [|done]. destruct Hbad as [?|[[? [=]]|?]]; [done|lia].
  - intros Hbad. destruct (decide (offsetStr <> "")) as [Hset|]; [|done].
    destruct (strconv_Atoi offsetStr) as [o [e|]]; [done|]. cbn [fst snd] in Hbad.
    case_decide; [|done]. destruct Hbad as [?|[[? [=]]|?]]; [done|lia].
Qed.

(** X17.  [handlePostByID] answers anything but GET with 405.  For a GET
    whose path is shorter than "/posts/" or whose rest after the seventh
    byte is no integer it answers 400 and never consults the storage.
    Otherwise it calls [GetPostByID] once with the integer read: a storage
    error becomes a 500, a missing post a 404, and a post found is the
    reply. *)
Theorem handlePostByID_outcomes (method path : string) (w : W) :
  let idStr := substring 7 (String.length path - 7) path in
  (method <> "GET" ->
   handlePostByID storage_ strconv_Atoi method path w =
   (handlers.http_Error "Method not allowed" 405, w)) /\
  (method = "GET" ->
   (String.length path < 7)%nat \/ is_Some (snd (strconv_Atoi idStr)) ->
   handlePostByID storage_ strconv_Atoi method path w =
   (handlers.http_Error "Invalid post ID" 400, w)) /\
  (forall id,
     method = "GET" -> (7 <= String.length path)%nat -> strconv_Atoi idStr = (id, None) ->
     handlePostByID storage_ strconv_Atoi method path w =
     match GetPostByID storage_ id w with
     | ((_, Some err), w1) =>
       (handlers.http_Error ("Failed to retrieve post: " +:+ Error err) 500, w1)
     | ((None, None), w1) => (handlers.http_Error "Post not found" 404, w1)
     | ((Some post, None), w1) => (JSON post, w1)
     end).
Proof.
  intros idStr. unfold handlePostByID. fold idStr.
  split; [|split].
  - intros Hm. by destruct (decide (method <> "GET")).
  - intros Hm Hbad. destruct (decide (method <> "GET")); [done|].
    destruct (decide (String.length path < 7)%nat); [done|].
    destruct Hbad as [Hshort|[e He]]; [lia|].
    destruct (strconv_Atoi idStr) as [id oe]. cbn [snd] in He. by subst oe.
  - intros id Hm Hlen Hid. destruct (decide (method <> "GET")); [done|].
    destruct (decide (String.length path < 7)%nat); [lia|]. by rewrite Hid.
Qed.

End Handlers.

(** *** The status handler over the DynamoDB backend *)
Section StatusHandler.
Import models storage server handlers more.

Context {W : Type} (client : DynamoDBAPI W) (codec : Codec).

(** X18.  Over the DynamoDB backend, GET /status replies either with a
    status or with a 500: never with JSON null and never with a 404.  When
    the read of the status record finds nothing, the reply is the status
    "never_run". *)
Theorem handleStatus_over_DynamoDB (d : DynamoDBStorage) (w : W) :
  ((exists status, fst (handleStatus (DynamoDB_Storage client codec d) "GET" w)
                   = JSON (Some status)) \/
   (exists message, fst (handleStatus (DynamoDB_Storage client codec d) "GET" w)
                    = handlers.http_Error message 500)) /\
  (fst (GetItemWithContext client (tableName d +:+ "_status") statusKey w) = (None, None) ->
   fst (handleStatus (DynamoDB_Storage client codec d) "GET" w) =
   JSON (Some {| LastSuccessfulRun := Time_zero; LastAttempt := Time_zero;
                 Status := "never_run"; ErrorMessage := ""; RecordsIngested := 0 |})).
Proof.
  unfold handleStatus. destruct (decide ("GET" <> "GET")) as [Hne|_]; [done|].
  cbn [GetIngestionStatus DynamoDB_Storage]. unfold DynamoDB_GetIngestionStatus.
  destruct (GetItemWithContext client _ _ w) as [[[item|] [err|]] w1]; cbn [fst].
  - split; [right; eauto|done].
  - destruct (UnmarshalMap_status codec item) as [status [err|]]; cbn [fst].
    + split; [right; eauto|done].
    + split; [left; eauto|done].
  - split; [right; eauto|done].
  - split; [left; eauto|done].
Qed.

End StatusHandler.

(** *** The handlers on concrete requests *)
Section HandlerRuns.
Import models storage server handlers more fixtures.

(** GET /posts/abc is a 400, GET /posts/9999 a 404, GET /posts/2 the post,
    GET /posts/ a 400. *)
Lemma handlePostByID_outcomes_witness :
  handlePostByID (DynamoDB_Storage memdb.client memdb.codec testTable) Atoi
    "GET" "/posts/abc" twoPosts
  = (handlers.http_Error "Invalid post ID" 400, twoPosts) /\
  handlePostByID (DynamoDB_Storage memdb.client memdb.codec testTable) Atoi
    "GET" "/posts/9999" twoPosts
  = (handlers.http_Error "Post not found" 404, twoPosts).
Proof.
  split.
  - apply (handlePostByID_outcomes (DynamoDB_Storage memdb.client memdb.codec testTable)
             Atoi "GET" "/posts/abc" twoPosts); [reflexivity|].
    right. vm_compute. eauto.
  - unshelve erewrite (proj2 (proj2 (handlePostByID_outcomes
                         (DynamoDB_Storage memdb.client memdb.codec testTable)
                         Atoi "GET" "/posts/9999" twoPosts)) 9999 eq_refl _ eq_refl).
    + simpl. lia.
    + reflexivity.
Defined.

(** GET /posts?limit=1&offset=3 asks the storage for one post from offset
    3 and reports both back; GET /posts?limit=0&offset=-2 asks for ten posts
    from offset 0. *)
Lemma handlePosts_sanitises_query_witness :
  fst (handlePosts (DynamoDB_Storage memdb.client memdb.codec testTable) Atoi
         "GET" "1" "3" twoPosts)
    = PostsJSON [storedPost 1 "Test Post 1"] 1 1 3 /\
  fst (handlePosts (DynamoDB_Storage memdb.client memdb.codec testTable) Atoi
         "GET" "0" "-2" twoPosts)
    = PostsJSON [storedPost 1 "Test Post 1"; storedPost 2 "Test Post 2"] 2 10 0.
Proof.
  split.
  - destruct (handlePosts_sanitises_query
                (DynamoDB_Storage memdb.client memdb.codec testTable) Atoi
                "GET" "1" "3" twoPosts) as [_ Hget].
    destruct (Hget eq_refl) as (limit & offset & _ & _ & _ & _ & Hlimit & Hoffset & _ & _ & ->).
    rewrite (Hlimit 1 ltac:(discriminate) eq_refl ltac:(lia)).
    rewrite (Hoffset 3 ltac:(discriminate) eq_refl ltac:(lia)).
    vm_compute. reflexivity.
  - destruct (handlePosts_sanitises_query
                (DynamoDB_Storage memdb.client memdb.codec testTable) Atoi
                "GET" "0" "-2" twoPosts) as [_ Hget].
    destruct (Hget eq_refl) as (limit & offset & _ & _ & _ & _ & _ & _ & Hlimit & Hoffset & ->).
    rewrite Hlimit by (right; right; vm_compute; discriminate).
    rewrite Hoffset by (right; right; vm_compute; reflexivity).
    vm_compute. reflexivity.
Defined.

Example handler_runs :
  fst (handlePostByID (DynamoDB_Storage memdb.client memdb.codec testTable) Atoi
         "GET" "/posts/2" twoPosts) = JSON (storedPost 2 "Test Post 2") /\
  fst (handlePostByID (DynamoDB_Storage memdb.client memdb.codec testTable) Atoi
         "GET" "/posts/" twoPosts) = handlers.http_Error "Invalid post ID" 400 /\
  fst (handlePostByID (DynamoDB_Storage memdb.client memdb.codec testTable) Atoi
         "GET" "/posts/2/comments" twoPosts) = handlers.http_Error "Invalid post ID" 400 /\
  fst (handlePosts (DynamoDB_Storage memdb.client memdb.codec testTable) Atoi
         "GET" "-1" "" twoPosts)
    = PostsJSON [storedPost 1 "Test Post 1"; storedPost 2 "Test Post 2"] 2 10 0 /\
  fst (handlePosts (DynamoDB_Storage memdb.client memdb.codec testTable) Atoi
         "POST" "" "" twoPosts) = server.http_Error "Method not allowed" 405.
Proof. vm_compute. repeat split. Qed.

End HandlerRuns.

(** ** How many requests a run can make *)
Section RequestBound.
Import models ingestion props more.

Context {W : Type} (env : Env) (s : Service W).

(** A cycle makes the attempts of its fetch and no other. *)
Lemma IngestData_attempts (w : World W) :
  exists attempts,
    fetches (snd (IngestData env s w)) = (fetches w + attempts)%nat /\
    (attempts <= Z.to_nat (config.RetryCount (cfg s)))%nat.
Proof.
  assert (exists attempts,
            fetches (snd (fetchPosts env s w)) = (fetches w + attempts)%nat /\
            (attempts <= Z.to_nat (config.RetryCount (cfg s)))%nat) as (a & Hf & Ha).
  { destruct (fetchPosts_from_outcomes env s (Z.to_nat (config.RetryCount (cfg s))) 0 None w
                ltac:(lia))
      as [(k & posts & _ & Hk & Hf & _)|[(j & _ & Hj & Hf & _)|(last & _ & Hf & _)]];
      fold (fetchPosts env s) in *;
      [exists (k + 1)%nat|exists (j + 1)%nat|exists (Z.to_nat (config.RetryCount (cfg s)))];
      (split; [rewrite Hf|]; lia). }
  unfold IngestData. run_M.
  destruct (fetchPosts env s w) as [[posts' [err|]] w1]; cbn [snd] in Hf; run_M;
    try (unfold transformPosts; run_M;
         destruct (storage.StorePosts (storage_ s) _ (store w1)) as [[e|] st]; run_M);
    by exists a.
Qed.

Lemma periodicLoop_attempts rounds : forall w : World W,
  exists attempts,
    fetches (snd (periodicLoop env s rounds w)) = (fetches w + attempts)%nat /\
    (attempts <= rounds * Z.to_nat (config.RetryCount (cfg s)))%nat.
Proof.
  induction rounds as [|rounds IH]; intros w.
  - exists 0%nat. cbn [periodicLoop]. run_M. lia.
  - cbn [periodicLoop]. run_M.
    destruct (tickCancelled env (ticks w)); run_M.
    + exists 0%nat. lia.
    + set (w0 := mkWorld _ _ _ _ _ _).
      destruct (IngestData_attempts w0) as (a & Hf & Ha).
      destruct (IngestData env s w0) as [[err|] w1]; cbn [snd] in Hf; run_M.
      * set (w2 := mkWorld _ _ _ _ _ _).
        destruct (IH w2) as (b & -> & Hb). exists (a + b)%nat.
        subst w2 w0. cbn [fetches] in *. rewrite Hf. lia.
      * destruct (IH w1) as (b & -> & Hb). exists (a + b)%nat.
        subst w0. cbn [fetches] in *. rewrite Hf. lia.
Qed.

(** X19.  The service is bounded in the requests it sends: in the first
    cycle and [rounds] rounds of the loop, [Start] makes at most
    [(rounds + 1) * RetryCount] attempts, whatever the server answers and
    whenever the context is cancelled; with a retry count that is not
    positive it makes none. *)
Theorem Start_request_bound (rounds : nat) (w : World W) :
  exists attempts,
    fetches (snd (Start env s rounds w)) = (fetches w + attempts)%nat /\
    (attempts <= (rounds + 1) * Z.to_nat (config.RetryCount (cfg s)))%nat.
Proof.
  unfold Start. run_M.
  destruct (IngestData_attempts w) as (a & Hf & Ha).
  destruct (IngestData env s w) as [[err|] w1]; cbn [snd] in Hf; run_M.
  - exists a. split; [done|]. lia.
  - destruct (decide (config.Interval (cfg s) <= 0)); run_M.
    + exists a. split; [done|]. lia.
    + set (w2 := mkWorld _ _ _ _ _ _).
      destruct (periodicLoop_attempts rounds w2) as (b & -> & Hb).
      exists (a + b)%nat. subst w2. cbn [fetches]. rewrite Hf. lia.
Qed.

End RequestBound.
